(** * abinit_bands_to_csv: a shallow embedding and its properties

    The program scans an Abinit [.out] file for band-structure datasets
    ([find_datasets]), picks one of them according to the [-c] option
    (the [__main__] block) and writes it out as rows of a csv table
    ([convert_to_csv]).

    Text is modelled as [string] (one [ascii] per character: the log is
    ASCII text), Python [int] as [Z], Python [float] as the kernel's
    binary64 [float], exceptions as a [result] type, and the csv writer
    as the list of rows handed to [writerow].  The C library's [pow],
    which [x ** 2] ends in and whose last bit differs from one library
    to the next, is a parameter ([Libm]). *)

From Stdlib Require Import ZArith List String Ascii Bool Lia.
From Stdlib Require Import DecimalString Floats.
Import ListNotations.

Local Open Scope Z_scope.

(** ** Exceptions and results *)

(** The exceptions the program can raise.  [IndexError] carries its
    message: the program builds one of them itself. *)
Inductive exn :=
| IndexError (msg : string)
| ValueError
| OverflowError.

Inductive result (A : Type) :=
| Ok (a : A)
| Raise (e : exn).

Arguments Ok {A} a.
Arguments Raise {A} e.

Definition bind {A B} (m : result A) (f : A -> result B) : result B :=
  match m with
  | Ok a => f a
  | Raise e => Raise e
  end.

Notation "x <- m ;; k" := (bind m (fun x => k))
  (at level 61, m at next level, right associativity).

(** ** The C library

    [x ** 2] on a [float] is [float_pow], which answers the special
    values itself and hands the others to the C library's [pow].  That
    function is accurate to less than one unit in the last place, not
    correctly rounded, and its result on a given argument changes with
    the library.  The program is read against any [pow] that has the two
    properties the C standard gives for a finite base above zero and the
    exponent 2: the result is a number that is not negative (zero after
    an underflow and an infinity after an overflow included), and [errno]
    is left at 0 or set to [ERANGE]. *)

(** The value of [errno] after the call: 0, [ERANGE], or another
    one. *)
Inductive errno :=
| ENone
| ERANGE
| EOther.

Class Libm := {
  c_pow_2 : float -> float * errno;
  c_pow_2_range : forall v,
    is_finite v = true -> (0 <? v)%float = true ->
    (0 <=? fst (c_pow_2 v))%float = true;
  c_pow_2_errno : forall v,
    is_finite v = true -> (0 <? v)%float = true ->
    snd (c_pow_2 v) <> EOther
}.

(** A [pow] that rounds the square correctly, and sets [ERANGE] when
    the result is an infinity or zero, as glibc does.  The examples are
    run with it. *)
Definition rounded_pow_2 (v : float) : float * errno :=
  let y := (v * v)%float in
  (y, if is_infinity y || is_zero y then ERANGE else ENone).

(** ** Python primitives *)

Module Py.

Definition is_digit (c : ascii) : bool :=
  (("0" <=? c) && (c <=? "9"))%char.

Definition is_alpha (c : ascii) : bool :=
  ((("a" <=? c) && (c <=? "z")) || (("A" <=? c) && (c <=? "Z")))%char.

(** The ASCII characters [int] and [float] skip around a number: the
    codes 9 to 13 and the blank ([Py_ISSPACE]). *)
Definition is_space (c : ascii) : bool :=
  let n := N_of_ascii c in
  ((9 <=? n) && (n <=? 13) || (n =? 32))%N.

Definition digit_val (c : ascii) : Z :=
  Z.of_N (N_of_ascii c) - 48.

Fixpoint lstrip (s : string) : string :=
  match s with
  | String c s' => if is_space c then lstrip s' else s
  | EmptyString => EmptyString
  end.

Fixpoint rstrip (s : string) : string :=
  match s with
  | String c s' =>
      match rstrip s' with
      | EmptyString => if is_space c then EmptyString else String c EmptyString
      | r => String c r
      end
  | EmptyString => EmptyString
  end.

Definition strip (s : string) : string := rstrip (lstrip s).

(** Digits after a first digit, single underscores allowed between
    two digits. *)
Fixpoint int_body (acc : Z) (s : string) : option Z :=
  match s with
  | EmptyString => Some acc
  | String c s' =>
      if is_digit c then int_body (10 * acc + digit_val c) s'
      else if (c =? "_")%char then
        match s' with
        | String d s'' =>
            if is_digit d then int_body (10 * acc + digit_val d) s''
            else None
        | EmptyString => None
        end
      else None
  end.

(** How many digits [s] holds. *)
Fixpoint count_digits (s : string) : Z :=
  match s with
  | String c s' => (if is_digit c then 1 else 0) + count_digits s'
  | EmptyString => 0
  end.

(** [sys.int_info.default_max_str_digits]: [int] refuses a text of
    more digits, leading zeros counted. *)
Definition max_str_digits : Z := 4300.

Definition int_digits (s : string) : option Z :=
  match s with
  | String d s' =>
      if is_digit d then
        match int_body (digit_val d) s' with
        | Some n => if max_str_digits <? count_digits s then None else Some n
        | None => None
        end
      else None
  | EmptyString => None
  end.

(** [int(s)] for a [str] in base 10, on ASCII text: surrounding
    white space, an optional sign, decimal digits, 4300 of them at
    most.  [None] stands for the [ValueError] that [int] raises. *)
Definition int (s : string) : option Z :=
  match strip s with
  | String "-" r => option_map Z.opp (int_digits r)
  | String "+" r => int_digits r
  | r => int_digits r
  end.

(** [str(n)] for an [int]. *)
Definition str (n : Z) : string :=
  NilEmpty.string_of_int (Z.to_int n).

(** [a > b] on [str]: lexicographic order on the characters' codes. *)
Definition str_gt (a b : string) : bool := String.ltb b a.

(** [l[i]] on a list: a negative index counts from the end. *)
Definition getitem {A} (l : list A) (i : Z) : result A :=
  let n := Z.of_nat (List.length l) in
  let j := if i <? 0 then i + n else i in
  if (j <? 0) || (n <=? j) then Raise (IndexError "list index out of range")
  else
    match nth_error l (Z.to_nat j) with
    | Some x => Ok x
    | None => Raise (IndexError "list index out of range")
    end.

(** Leading decimal digits of [s]: their value on top of [acc], how
    many there were, and the rest of [s]. *)
Fixpoint take_digits (acc : Z) (n : nat) (s : string) : Z * nat * string :=
  match s with
  | String c s' =>
      if is_digit c then take_digits (10 * acc + digit_val c) (S n) s'
      else (acc, n, s)
  | EmptyString => (acc, n, s)
  end.

(** The binary64 number nearest to [m / 10^k] (ties to even), with
    the sign [neg]: the decimal is rounded once, as [float] does. *)
Definition float_of_decimal (neg : bool) (m : Z) (k : nat) : PrimFloat.float :=
  SF2Prim
    match m with
    | Zpos p =>
        SFdiv prec emax (S754_finite neg p 0)
              (S754_finite false (Z.to_pos (10 ^ Z.of_nat k)) 0)
    | _ => S754_zero neg
    end.

(** [float(s)] for a [str] made of white space, a sign, digits and a
    point, which is all that the patterns' class [[\-0-9\.]] lets
    through.  [None] stands for [ValueError]. *)
Definition float (s : string) : option PrimFloat.float :=
  let t := strip s in
  let '(neg, body) :=
    match t with
    | String "-" r => (true, r)
    | String "+" r => (false, r)
    | _ => (false, t)
    end in
  let '(i, ni, rest) := take_digits 0 0 body in
  match rest with
  | EmptyString =>
      if (ni =? 0)%nat then None else Some (float_of_decimal neg i 0)
  | String "." frac =>
      let '(m, nf, rest') := take_digits i 0 frac in
      match rest' with
      | EmptyString =>
          if (ni + nf =? 0)%nat then None
          else Some (float_of_decimal neg m nf)
      | _ => None
      end
  | _ => None
  end.

(** [_Py_ADJUST_ERANGE1]: an infinite result is a range error even
    when [errno] was left at 0, and a result of zero is none. *)
Definition adjust_erange1 (ix : PrimFloat.float) (e : errno) : errno :=
  match e with
  | ENone => if is_infinity ix then ERANGE else ENone
  | ERANGE => if is_zero ix then ENone else ERANGE
  | EOther => EOther
  end.

(** [x ** 2] on a [float], that is [float_pow] with the exponent 2.0:
    a NaN is returned as it is, the infinities give [inf], the zeros give
    [0.0], a negative [x] is replaced by [-x] (the exponent is even, so
    the result is not negated), 1.0 gives 1.0, and the other values go to
    the C library's [pow]; an [errno] of [ERANGE] is raised as
    [OverflowError], any other one as [ValueError]. *)
Definition pow2 {libm : Libm} (x : PrimFloat.float) : result PrimFloat.float :=
  if is_nan x then Ok x
  else if is_infinity x then Ok infinity
  else if is_zero x then Ok zero
  else
    let iv := abs x in
    if (iv =? 1)%float then Ok one
    else
      let '(ix, e) := c_pow_2 iv in
      match adjust_erange1 ix e with
      | ENone => Ok ix
      | ERANGE => Raise OverflowError
      | EOther => Raise ValueError
      end.

(** [math.sqrt(x)] *)
Definition sqrt (x : PrimFloat.float) : result PrimFloat.float :=
  if (x <? 0)%float then Raise ValueError else Ok (PrimFloat.sqrt x).

End Py.

(** ** Regular expressions

    The fragment of Python's [re] syntax the program's three patterns
    are written in: literal text, a greedy [*] or [+] over one character
    class, and capturing groups.  Matching is by backtracking, greedy
    repetitions giving characters back one at a time, as [re] does. *)

Module Re.

Definition cls := ascii -> bool.

Inductive node :=
| Lit (s : string)
| Star (c : cls)
| Plus (c : cls)
| Group (n : node).

Definition regex := list node.

(** What is left of [s] after the literal [l] at its front. *)
Fixpoint strip_prefix (l s : string) : option string :=
  match l with
  | EmptyString => Some s
  | String a l' =>
      match s with
      | String b s' => if (a =? b)%char then strip_prefix l' s' else None
      | EmptyString => None
      end
  end.

Section Matching.
Context {A : Type}.

(** Greedy [c*] followed by the continuation [k]: take one more
    character when the class allows it and the rest of the pattern
    then matches; otherwise stop here.  [acc] is the text consumed so
    far, last character first. *)
Fixpoint star (c : cls) (k : string -> string -> option A)
         (acc : list ascii) (s : string) : option A :=
  let stop := k (string_of_list_ascii (rev acc)) s in
  match s with
  | String a s' =>
      if c a then
        match star c k (a :: acc) s' with
        | Some r => Some r
        | None => stop
        end
      else stop
  | EmptyString => stop
  end.

(** One node against the front of [s]; [k] receives the text the
    node consumed and what is left. *)
Fixpoint match_node (n : node) (s : string)
         (k : string -> string -> option A) : option A :=
  match n with
  | Lit l =>
      match strip_prefix l s with
      | Some rest => k l rest
      | None => None
      end
  | Star c => star c k [] s
  | Plus c =>
      match s with
      | String a s' => if c a then star c k [a] s' else None
      | EmptyString => None
      end
  | Group n' => match_node n' s k
  end.
End Matching.

(** The groups a node contributes, given the text it consumed. *)
Fixpoint captures (n : node) (text : string) : list string :=
  match n with
  | Group n' => text :: captures n' text
  | _ => []
  end.

(** The whole pattern against the front of [s]: the groups' texts and
    what is left of [s] after the match. *)
Fixpoint match_here (r : regex) (s : string) : option (list string * string) :=
  match r with
  | [] => Some ([], s)
  | n :: r' =>
      match_node n s (fun text rest =>
        match match_here r' rest with
        | Some (gs, rest') => Some (captures n text ++ gs, rest')
        | None => None
        end)
  end.

(** [re.search(r, s)], as the groups of the leftmost match. *)
Fixpoint search (r : regex) (s : string) : option (list string) :=
  match match_here r s with
  | Some (gs, _) => Some gs
  | None =>
      match s with
      | String _ s' => search r s'
      | EmptyString => None
      end
  end.

(** The groups of all non-overlapping matches, left to right.  After a
    match the scan resumes where the match ended (one character further
    on when the match was empty, which the patterns here never are).
    Each step of [fuel] takes at least one character off [s]. *)
Fixpoint finditer (fuel : nat) (r : regex) (s : string) : list (list string) :=
  match fuel with
  | O => []
  | S fuel' =>
      match match_here r s with
      | Some (gs, rest) =>
          if (String.length rest <? String.length s)%nat
          then gs :: finditer fuel' r rest
          else
            match s with
            | String _ s' => gs :: finditer fuel' r s'
            | EmptyString => [gs]
            end
      | None =>
          match s with
          | String _ s' => finditer fuel' r s'
          | EmptyString => []
          end
      end
  end.

(** [re.findall(r, s)] for a pattern with exactly one group: the list
    of that group's texts. *)
Definition findall (r : regex) (s : string) : list string :=
  map (fun gs => nth 0 gs EmptyString) (finditer (S (String.length s)) r s).

End Re.

(** ** The program's patterns *)

Definition is_blank (c : ascii) : bool := (c =? " ")%char.

(** [\w], on ASCII text. *)
Definition is_word (c : ascii) : bool :=
  Py.is_alpha c || Py.is_digit c || (c =? "_")%char.

(** [[0-9]] *)
Definition is_num (c : ascii) : bool := Py.is_digit c.

(** [[\-0-9\.]] *)
Definition is_value_char (c : ascii) : bool :=
  (c =? "-")%char || Py.is_digit c || (c =? ".")%char.

(** [r"Eigenvalues \( *(\w+) *\) for nkpt= *([0-9]+) *k points:"] *)
Definition re_header : Re.regex :=
  [ Re.Lit "Eigenvalues ("; Re.Star is_blank; Re.Group (Re.Plus is_word);
    Re.Star is_blank; Re.Lit ") for nkpt="; Re.Star is_blank;
    Re.Group (Re.Plus is_num); Re.Star is_blank; Re.Lit "k points:" ].

(** [r"kpt= +([\-0-9\.]+) +([\-0-9\.]+) +([\-0-9\.]+)"] *)
Definition re_coords : Re.regex :=
  [ Re.Lit "kpt="; Re.Plus is_blank; Re.Group (Re.Plus is_value_char);
    Re.Plus is_blank; Re.Group (Re.Plus is_value_char);
    Re.Plus is_blank; Re.Group (Re.Plus is_value_char) ].

(** [r"([\-0-9\.]+)"] *)
Definition re_value : Re.regex :=
  [ Re.Group (Re.Plus is_value_char) ].

(** ** [find_datasets] *)

(** A dataset as [find_datasets] builds it: the list
    [[unit, nkpt, lines]], the first two being the header's groups, both
    of type [str]. *)
Record dataset := mkDataset {
  ds_unit : string;
  ds_nkpt : string;
  ds_lines : list string
}.

(** [datasets[-1][2].append(line)] *)
Fixpoint append_line (datasets : list dataset) (line : string)
  : result (list dataset) :=
  match datasets with
  | [] => Raise (IndexError "list index out of range")
  | [d] => Ok [mkDataset (ds_unit d) (ds_nkpt d) (ds_lines d ++ [line])]
  | d :: rest => rest' <- append_line rest line ;; Ok (d :: rest')
  end.

(** The loop's state: [datasets] and [data_lines_ahead]. *)
Definition scan_state := (list dataset * Z)%type.

(** One iteration of [for line in file]. *)
Definition scan_line (st : scan_state) (line : string) : result scan_state :=
  let '(datasets, data_lines_ahead) := st in
  if data_lines_ahead =? 0 then
    match Re.search re_header line with
    | Some groups =>
        let d := mkDataset (nth 0 groups EmptyString) (nth 1 groups EmptyString) [] in
        match Py.int (nth 1 groups EmptyString) with
        | Some n => Ok (datasets ++ [d], n * 2)
        | None => Raise ValueError
        end
    | None => Ok st
    end
  else
    datasets' <- append_line datasets line ;;
    Ok (datasets', data_lines_ahead - 1).

Fixpoint scan_from (st : scan_state) (file : list string) : result scan_state :=
  match file with
  | [] => Ok st
  | line :: file' => st' <- scan_line st line ;; scan_from st' file'
  end.

(** The whole loop, from [datasets=[]] and [data_lines_ahead=0]. *)
Definition scan (file : list string) : result scan_state :=
  scan_from ([], 0) file.

Definition find_datasets (file : list string) : result (list dataset) :=
  st <- scan file ;; Ok (fst st).

(** ** [convert_to_csv] *)

(** A field handed to the csv writer: a [float] or a [str]. *)
Inductive cell :=
| Num (x : float)
| Str (s : string).

Definition row := list cell.

(** What a run has done: the rows passed to [ostream.writerow], in
    order, and the exception that ended it, if any. *)
Definition output := (list row * option exn)%type.

Definition kpoint := (float * float * float)%type.

(** The helper variables of [convert_to_csv]. *)
Record conv_state := mkConv {
  path_length : float;
  out_line : row;
  k : kpoint;
  k_old : option kpoint
}.

Definition conv_init : conv_state :=
  mkConv 0 [] (0, 0, 0)%float None.

(** [float(coords.groups()[i])] *)
Definition group_float (groups : list string) (i : nat) : result float :=
  match Py.float (nth i groups EmptyString) with
  | Some x => Ok x
  | None => Raise ValueError
  end.

(** The branch [if coords:] of the loop body. *)
Definition coords_line {libm : Libm} (st : conv_state) (groups : list string)
  : result conv_state :=
  ko <- match k_old st with
        | None =>
            a <- group_float groups 0 ;;
            b <- group_float groups 1 ;;
            c <- group_float groups 2 ;;
            Ok (a, b, c)
        | Some ko => Ok ko
        end ;;
  let '(o0, o1, o2) := ko in
  let step_squared := 0%float in
  k0 <- group_float groups 0 ;;
  d0 <- Py.pow2 (k0 - o0) ;;
  let step_squared := (step_squared + d0)%float in
  k1 <- group_float groups 1 ;;
  d1 <- Py.pow2 (k1 - o1) ;;
  let step_squared := (step_squared + d1)%float in
  k2 <- group_float groups 2 ;;
  d2 <- Py.pow2 (k2 - o2) ;;
  let step_squared := (step_squared + d2)%float in
  r <- Py.sqrt step_squared ;;
  let p := (path_length st + r)%float in
  Ok (mkConv p (out_line st ++ [Num p; Num k0; Num k1; Num k2])
             (k0, k1, k2) (Some (k0, k1, k2))).

(** The branch [else:] of the loop body: the row written, the state
    after it. *)
Definition values_line (st : conv_state) (line : string) : row * conv_state :=
  (out_line st ++ map Str (Re.findall re_value line),
   mkConv (path_length st) [] (k st) (k_old st)).

(** [for line in dataset[2]: ...] *)
Fixpoint convert_lines {libm : Libm} (st : conv_state) (lines : list string)
  : output :=
  match lines with
  | [] => ([], None)
  | line :: lines' =>
      match Re.search re_coords line with
      | Some groups =>
          match coords_line st groups with
          | Ok st' => convert_lines st' lines'
          | Raise e => ([], Some e)
          end
      | None =>
          let '(r, st') := values_line st line in
          let '(rows, e) := convert_lines st' lines' in
          (r :: rows, e)
      end
  end.

(** The three descriptive rows written first. *)
Definition descriptive_rows (d : dataset) (name : string) : list row :=
  [ [Str (" Band structure: file generated from Abinit " ++ name ++ " file. ")];
    [Str (" Eigenvalues (" ++ ds_unit d ++ ") for nkpt= " ++ ds_nkpt d
          ++ " k points. ")];
    [Str " Format: total path length, kx, ky, kz, one or more energy eigenvalues. "]
  ]%string.

Definition convert_to_csv {libm : Libm} (d : dataset) (name : string) : output :=
  let '(rows, e) := convert_lines conv_init (ds_lines d) in
  (descriptive_rows d name ++ rows, e).

(** The rows of the table proper, after the descriptive ones. *)
Definition data_rows (o : output) : list row := skipn 3 (fst o).

(** ** The [__main__] block *)

(** The value of [args.c]: the default is the [str] ["b"], an option
    given on the command line arrives as a list (it is declared with
    [nargs=1]). *)
Inductive argval :=
| ArgStr (s : string)
| ArgList (l : list string).

(** [args.c == s] for a [str] [s] *)
Definition arg_is (c : argval) (s : string) : bool :=
  match c with
  | ArgStr t => String.eqb t s
  | ArgList _ => false
  end.

(** [args.c[0]] *)
Definition arg_first (c : argval) : result string :=
  match c with
  | ArgStr (String a _) => Ok (String a EmptyString)
  | ArgStr EmptyString => Raise (IndexError "string index out of range")
  | ArgList (s :: _) => Ok s
  | ArgList [] => Raise (IndexError "list index out of range")
  end.

(** [datasets[i][1]] *)
Definition nkpt_at (datasets : list dataset) (i : nat) : string :=
  nth i (map ds_nkpt datasets) EmptyString.

(** The loop of the branch ["b"]:
    [requested_set=0; for i in range(len(datasets)): ...] *)
Definition biggest (datasets : list dataset) : nat :=
  fold_left
    (fun requested_set i =>
       if Py.str_gt (nkpt_at datasets i) (nkpt_at datasets requested_set)
       then i else requested_set)
    (seq 0 (List.length datasets)) 0%nat.

Definition error_string (tok : string) (len : Z) : string :=
  ("No such dataset: " ++ tok ++ ". There are " ++ Py.str len
   ++ " sets, so correct -c " ++ "values are:" ++ "'b', 'l', or any number from "
   ++ Py.str (- len) ++ " to " ++ Py.str (len - 1) ++ ".")%string.

(** The value of [requested_set] after the [if]/[elif]/[else]. *)
Definition select (c : argval) (datasets : list dataset) : result Z :=
  let len := Z.of_nat (List.length datasets) in
  if arg_is c "b" then Ok (Z.of_nat (biggest datasets))
  else if arg_is c "l" then Ok (-1)
  else
    tok <- arg_first c ;;
    match Py.int tok with
    | None => Raise (IndexError (error_string tok len))
    | Some requested_set =>
        if negb ((- len <=? requested_set) && (requested_set <=? len - 1))
        then Raise (IndexError (error_string tok len))
        else Ok requested_set
    end.

(** [datasets[requested_set]], the argument of [convert_to_csv]. *)
Definition chosen (c : argval) (datasets : list dataset) : result dataset :=
  requested_set <- select c datasets ;;
  Py.getitem datasets requested_set.

Definition main {libm : Libm} (c : argval) (name : string) (file : list string)
  : output :=
  match (datasets <- find_datasets file ;; chosen c datasets) with
  | Ok d => convert_to_csv d name
  | Raise e => ([], Some e)
  end.

(** * The vocabulary of the properties *)

(** ** Text *)

(** Every character of [s] is in the class [c]. *)
Fixpoint str_all (c : ascii -> bool) (s : string) : bool :=
  match s with
  | String a s' => c a && str_all c s'
  | EmptyString => true
  end.

(** The first character of [s], if any, is not in the class [c]. *)
Definition not_starting (c : ascii -> bool) (s : string) : bool :=
  match s with
  | String a _ => negb (c a)
  | EmptyString => true
  end.

(** The text a node of a pattern can consume. *)
Fixpoint node_ok (n : Re.node) (text : string) : Prop :=
  match n with
  | Re.Lit l => text = l
  | Re.Star c => str_all c text = true
  | Re.Plus c => text <> EmptyString /\ str_all c text = true
  | Re.Group n' => node_ok n' text
  end.

(** ** The scanner *)

(** [d] is a dataset that still waits for [ahead] lines. *)
Definition awaiting (ahead : Z) (d : dataset) : Prop :=
  exists n, Py.int (ds_nkpt d) = Some n
            /\ Z.of_nat (List.length (ds_lines d)) + ahead = 2 * n.

(** A dataset whose block is complete: [lines.length == 2 * pointCount]. *)
Definition complete (d : dataset) : Prop := awaiting 0 d.

(** The loop invariant of [find_datasets]: the counter is not negative,
    every dataset but the last is complete, the last one waits for
    [ahead] lines. *)
Fixpoint scan_inv_from (datasets : list dataset) (ahead : Z) : Prop :=
  match datasets with
  | [] => ahead = 0
  | [d] => awaiting ahead d
  | d :: rest => complete d /\ scan_inv_from rest ahead
  end.

(** The invariant, on a state of the loop. *)
Definition scan_inv (st : scan_state) : Prop :=
  0 <= snd st /\ scan_inv_from (fst st) (snd st).

(** The result of a scan, with the datasets [pre] put in front. *)
Definition framed (pre : list dataset) (st : result scan_state) : result scan_state :=
  st' <- st ;; Ok ((pre ++ fst st')%list, snd st').

(** ** Tokens *)

(** The characters outside the class [[\-0-9\.]]. *)
Definition not_value_char (c : ascii) : bool := negb (is_value_char c).

(** [tokens_of s toks]: [toks] are the maximal non-empty runs of
    characters of the class [[\-0-9\.]] in [s], from left to right.  Each
    token is preceded by text without any character of the class, and
    followed by the end of [s] or a character outside the class. *)
Inductive tokens_of : string -> list string -> Prop :=
| tokens_none s :
    str_all not_value_char s = true ->
    tokens_of s []
| tokens_cons sep tok rest toks :
    str_all not_value_char sep = true ->
    tok <> EmptyString ->
    str_all is_value_char tok = true ->
    not_starting is_value_char rest = true ->
    tokens_of rest toks ->
    tokens_of (sep ++ tok ++ rest)%string (tok :: toks).

(** ** The converter *)

(** The line takes the branch [if coords:]. *)
Definition is_coords (line : string) : bool :=
  match Re.search re_coords line with
  | Some _ => true
  | None => false
  end.

(** The lines that take the branch [else:]. *)
Definition values_lines (lines : list string) : list string :=
  filter (fun line => negb (is_coords line)) lines.

(** A block of coordinate/values line pairs, flattened. *)
Fixpoint flatten_pairs (pairs : list (string * string)) : list string :=
  match pairs with
  | [] => []
  | (c, v) :: pairs' => c :: v :: flatten_pairs pairs'
  end.



(** ** Binary64 numbers *)

(** The exponent of the last bit kept, for a number of a given
    magnitude. *)
Abbreviation fexp64 := (fexp prec emax).

(** Not NaN, and not below zero. *)
Definition nonneg_sf (f : spec_float) : Prop :=
  match f with
  | S754_zero _ | S754_finite false _ _ | S754_infinity false => True
  | _ => False
  end.

(** Not NaN. *)
Definition number_sf (f : spec_float) : Prop :=
  match f with
  | S754_nan => False
  | _ => True
  end.

(** Neither NaN nor an infinity. *)
Definition finite_sf (f : spec_float) : Prop :=
  match f with
  | S754_zero _ | S754_finite _ _ _ => True
  | _ => False
  end.

(** The same, on the primitive floats. *)
Definition nonneg (x : float) : Prop := nonneg_sf (Prim2SF x).
Definition number (x : float) : Prop := number_sf (Prim2SF x).

(** ** Path lengths *)

(** The path lengths in a row: the first of every four numbers at its
    front. *)
Fixpoint row_paths (r : row) : list float :=
  match r with
  | Num p :: Num _ :: Num _ :: Num _ :: r' => p :: row_paths r'
  | _ => []
  end.

(** The path lengths written, in order. *)
Definition emitted_paths (rows : list row) : list float :=
  flat_map row_paths rows.

(** Each number is [<=] the next one, in the order of [float]. *)
Fixpoint nondecreasing (l : list float) : Prop :=
  match l with
  | x :: (y :: _) as l' => (x <=? y)%float = true /\ nondecreasing l'
  | _ => True
  end.

(** Every coordinate of the line that [float] accepts is finite: no
    token is so large that it becomes an infinity. *)
Definition finite_coords (line : string) : bool :=
  match Re.search re_coords line with
  | Some groups =>
      forallb (fun g => match Py.float g with
                        | Some x => is_finite x
                        | None => true
                        end) groups
  | None => true
  end.

(** The values [path_length] takes, one for each coordinate line
    processed. *)
Fixpoint trace {libm : Libm} (st : conv_state) (lines : list string)
  : list float :=
  match lines with
  | [] => []
  | line :: lines' =>
      match Re.search re_coords line with
      | Some groups =>
          match coords_line st groups with
          | Ok st' => path_length st' :: trace st' lines'
          | Raise _ => []
          end
      | None => trace (snd (values_line st line)) lines'
      end
  end.

(** The four numbers a coordinate line adds to [out_line]. *)
Definition quad := (float * float * float * float)%type.

Definition quad_cells (q : quad) : row :=
  let '(p, x, y, z) := q in [Num p; Num x; Num y; Num z].

Definition quad_path (q : quad) : float :=
  let '(p, _, _, _) := q in p.

(** The state the converter is in: the path length is a number that is
    not negative, the previous k-point is finite. *)
Definition conv_ok (st : conv_state) : Prop :=
  nonneg (path_length st)
  /\ match k_old st with
     | Some (a, b, c) =>
         is_finite a = true /\ is_finite b = true /\ is_finite c = true
     | None => True
     end.

(** The first character of [s] is in the class [c]. *)
Definition starting (c : ascii -> bool) (s : string) : bool :=
  match s with
  | String a _ => c a
  | EmptyString => false
  end.

(** ** Logs and datasets used as examples *)

Local Open Scope string_scope.

(** One dataset of two k-points. *)
Definition log_two_points : list string :=
  [ "Eigenvalues ( Hartree ) for nkpt= 2 k points:";
    "kpt= 0.0 0.0 0.0"; "1.0 2.0";
    "kpt= 1.0 0.0 0.0"; "3.0 4.0" ].

Definition two_points : dataset :=
  mkDataset "Hartree" "2"
    [ "kpt= 0.0 0.0 0.0"; "1.0 2.0"; "kpt= 1.0 0.0 0.0"; "3.0 4.0" ].

(** Two datasets of one k-point each. *)
Definition log_tie : list string :=
  [ "Eigenvalues ( Hartree ) for nkpt= 1 k points:";
    "kpt= 0.0 0.0 0.0"; "1.0";
    "Eigenvalues (   eV    ) for nkpt= 1 k points:";
    "kpt= 0.5 0.0 0.0"; "2.0" ].

(** A dataset of 2 k-points, then one of 10. *)
Definition log_2_then_10 : list string :=
  ("Eigenvalues ( Hartree ) for nkpt= 2 k points:"
   :: flatten_pairs (repeat ("kpt= 0.0 0.0 0.0", "1.0") 2))
  ++ ("Eigenvalues ( Hartree ) for nkpt= 10 k points:"
      :: flatten_pairs (repeat ("kpt= 0.5 0.0 0.0", "2.0") 10)).


(** The syntax the specification gives for a token: an optional minus,
    digits, and optionally a point and digits. *)
Definition spec_signed_decimal (s : string) : bool :=
  let body := match s with
              | String "-" r => r
              | _ => s
              end in
  let '(_, ni, rest) := Py.take_digits 0 0 body in
  (0 <? ni)%nat
  && match rest with
     | EmptyString => true
     | String "." frac =>
         let '(_, nf, rest') := Py.take_digits 0 0 frac in
         (0 <? nf)%nat && (rest' =? EmptyString)%string
     | _ => false
     end.

(** The number 10^400 written out: a one and four hundred zeros.  It is
    above every finite binary64 number. *)
Definition huge : string :=
  String "1" (string_of_list_ascii (repeat "0"%char 400)).

(** Two k-points with that first coordinate. *)
Definition log_overflow : list string :=
  [ "Eigenvalues ( Hartree ) for nkpt= 2 k points:";
    "kpt= " ++ huge ++ " 0.0 0.0"; "1.0";
    "kpt= " ++ huge ++ " 0.5 0.0"; "2.0" ].

(** A header whose count is written with 4301 digits. *)
Definition long_header : string :=
  "Eigenvalues ( Hartree ) for nkpt= "
  ++ string_of_list_ascii (repeat "1"%char 4301) ++ " k points:".

Local Close Scope string_scope.

(** ** The vocabulary of the further properties *)

(** The body of the loop. *)
Definition biggest_step (datasets : list dataset) (requested_set i : nat) : nat :=
  if Py.str_gt (nkpt_at datasets i) (nkpt_at datasets requested_set)
  then i else requested_set.

(** [r] is the first place, among the [m] first ones, whose count is
    not below any other as text. *)
Definition first_greatest (datasets : list dataset) (m r : nat) : Prop :=
  (r < m)%nat
  /\ (forall j, (j < m)%nat ->
                Py.str_gt (nkpt_at datasets j) (nkpt_at datasets r) = false)
  /\ (forall j, (j < r)%nat ->
                Py.str_gt (nkpt_at datasets r) (nkpt_at datasets j) = true).

(** The number of lines the scanner has used: one for each dataset,
    its header, and the lines stored. *)
Definition lines_used (datasets : list dataset) : nat :=
  fold_right (fun d n => S (List.length (ds_lines d)) + n)%nat 0%nat datasets.

(** What may follow the text of a node, for the node to stop there: a
    repetition stops before a character that is not of its class. *)
Fixpoint node_stop (n : Re.node) (rest : string) : Prop :=
  match n with
  | Re.Lit _ => True
  | Re.Star c | Re.Plus c => not_starting c rest = true
  | Re.Group n' => node_stop n' rest
  end.

(** The literal [lit] starts nowhere in [pre], read with [rest] after
    it. *)
Fixpoint no_start (lit pre rest : string) : bool :=
  match pre with
  | EmptyString => true
  | String a pre' =>
      match Re.strip_prefix lit (pre ++ rest) with
      | Some _ => false
      | None => no_start lit pre' rest
      end
  end.

Local Open Scope string_scope.
Local Open Scope Z_scope.

(** The header of a dataset, written with one blank at each place. *)
Definition header_line (unit nkpt : string) : string :=
  "Eigenvalues ( " ++ unit ++ " ) for nkpt= " ++ nkpt ++ " k points:".

(** A dataset as it stands in a log: its header, then its lines. *)
Definition render (d : dataset) : list string :=
  header_line (ds_unit d) (ds_nkpt d) :: ds_lines d.

(** A unit made of word characters, a count made of digits, and twice
    as many lines as the count says. *)
Definition well_formed (d : dataset) : bool :=
  negb (ds_unit d =? EmptyString)%string && str_all is_word (ds_unit d)
  && negb (ds_nkpt d =? EmptyString)%string && str_all is_num (ds_nkpt d)
  && match Py.int (ds_nkpt d) with
     | Some n => Z.of_nat (List.length (ds_lines d)) =? 2 * n
     | None => false
     end.

Local Close Scope string_scope.

(** NaN, or a number that is not below zero. *)
Definition nonneg_or_nan (x : float) : Prop :=
  match Prim2SF x with
  | S754_nan => True
  | f => nonneg_sf f
  end.

(** A row: groups of four numbers, then the tokens of the line [v], as
    text. *)
Definition row_for (r : row) (v : string) : Prop :=
  exists qs, r = (flat_map quad_cells qs ++ map Str (Re.findall re_value v))%list.

(** The coordinates of a coordinate line, as numbers. *)
Definition coords_of (line : string) : option kpoint :=
  match Re.search re_coords line with
  | Some groups =>
      match Py.float (nth 0 groups EmptyString),
            Py.float (nth 1 groups EmptyString),
            Py.float (nth 2 groups EmptyString) with
      | Some x, Some y, Some z => Some (x, y, z)
      | _, _, _ => None
      end
  | None => None
  end.

(** The value of [x ** 2], where it does not raise. *)
Definition square {libm : Libm} (x : float) : float :=
  match Py.pow2 x with
  | Ok y => y
  | Raise _ => nan
  end.




(** The length of the step from [a] to [b], in the order the program
    adds it up. *)
Definition step_length {libm : Libm} (a b : kpoint) : float :=
  let '(a0, a1, a2) := a in
  let '(b0, b1, b2) := b in
  PrimFloat.sqrt
    (0 + square (b0 - a0) + square (b1 - a1) + square (b2 - a2))%float.

(** The rows for the k-points [ks] and the values lines [vs], from the
    path length [p] and the k-point [prev]. *)
Fixpoint rows_from {libm : Libm} (p : float) (prev : kpoint) (ks : list kpoint)
         (vs : list string) : list row :=
  match ks, vs with
  | kp :: ks', v :: vs' =>
      let p' := (p + step_length prev kp)%float in
      let '(x, y, z) := kp in
      ([Num p'; Num x; Num y; Num z] ++ map Str (Re.findall re_value v))%list
      :: rows_from p' kp ks' vs'
  | _, _ => []
  end.

(** The rows of a block, the first k-point being its own predecessor. *)
Definition rows_of {libm : Libm} (ks : list kpoint) (vs : list string)
  : list row :=
  match ks with
  | [] => []
  | k0 :: _ => rows_from 0 k0 ks vs
  end.

(** * Lemmas *)

(** ** Strings *)

Lemma append_nil_r (s : string) : (s ++ EmptyString)%string = s.
Proof. induction s; simpl; congruence. Qed.

Lemma append_assoc (a b c : string) :
  ((a ++ b) ++ c)%string = (a ++ (b ++ c))%string.
Proof. induction a; simpl; congruence. Qed.

Lemma of_list_app (l1 l2 : list ascii) :
  string_of_list_ascii (l1 ++ l2)
  = (string_of_list_ascii l1 ++ string_of_list_ascii l2)%string.
Proof. induction l1; simpl; congruence. Qed.

Lemma append_length (a b : string) :
  String.length (a ++ b) = (String.length a + String.length b)%nat.
Proof. induction a; simpl; congruence. Qed.

Lemma str_all_app c (a b : string) :
  str_all c (a ++ b) = str_all c a && str_all c b.
Proof.
  induction a as [|x a IH]; simpl; [reflexivity|].
  rewrite IH. apply andb_assoc.
Qed.

(** ** The matcher *)

Module ReFacts.
Import Re.

Lemma strip_prefix_inv l : forall s rest,
  strip_prefix l s = Some rest -> s = (l ++ rest)%string.
Proof.
  induction l as [|a l IH]; simpl; intros s rest H.
  - congruence.
  - destruct s as [|b s]; [discriminate|].
    destruct (Ascii.eqb_spec a b) as [->|]; [|discriminate].
    f_equal. now apply IH.
Qed.

Lemma strip_prefix_app l rest : strip_prefix l (l ++ rest) = Some rest.
Proof.
  induction l as [|a l IH]; simpl; [reflexivity|].
  now rewrite Ascii.eqb_refl.
Qed.

Section Inversion.
Context {A : Type}.
Implicit Types k : string -> string -> option A.

Lemma star_inv c k : forall s acc r,
  star c k acc s = Some r ->
  exists text rest,
    s = (text ++ rest)%string /\ str_all c text = true
    /\ k (string_of_list_ascii (rev acc) ++ text)%string rest = Some r.
Proof.
  induction s as [|a s IH]; intros acc r H.
  - exists EmptyString, EmptyString. simpl in H |- *.
    now rewrite append_nil_r.
  - simpl in H.
    assert (Hstop : k (string_of_list_ascii (rev acc)) (String a s) = Some r ->
            exists text rest,
              String a s = (text ++ rest)%string /\ str_all c text = true
              /\ k (string_of_list_ascii (rev acc) ++ text)%string rest = Some r).
    { intro Hk. exists EmptyString, (String a s).
      now rewrite append_nil_r. }
    destruct (c a) eqn:Hc; [|auto].
    destruct (star c k (a :: acc) s) as [r'|] eqn:Hs; [|auto].
    apply IH in Hs. destruct Hs as (text & rest & -> & Hall & Hk).
    exists (String a text), rest. simpl. rewrite Hc, Hall.
    repeat split. simpl in Hk. rewrite of_list_app, append_assoc in Hk.
    simpl in Hk. congruence.
Qed.

Lemma match_node_inv n : forall s k r,
  match_node n s k = Some r ->
  exists text rest,
    s = (text ++ rest)%string /\ node_ok n text /\ k text rest = Some r.
Proof.
  induction n as [l|c|c|n IH]; simpl; intros s k r H.
  - destruct (strip_prefix l s) as [rest|] eqn:Hp; [|discriminate].
    apply strip_prefix_inv in Hp. now exists l, rest.
  - apply star_inv in H. destruct H as (text & rest & -> & Hall & Hk).
    now exists text, rest.
  - destruct s as [|a s]; [discriminate|].
    destruct (c a) eqn:Hc; [|discriminate].
    apply star_inv in H. destruct H as (text & rest & -> & Hall & Hk).
    exists (String a text), rest. simpl in *. rewrite Hc, Hall.
    repeat split; congruence.
  - now apply IH.
Qed.

(** When whatever follows accepts any split, a greedy repetition
    takes every character it can. *)
Lemma star_greedy c k (Hk : forall t r, k t r <> None) : forall s acc,
  exists text rest,
    s = (text ++ rest)%string /\ str_all c text = true
    /\ not_starting c rest = true
    /\ star c k acc s = k (string_of_list_ascii (rev acc) ++ text)%string rest.
Proof.
  induction s as [|a s IH]; intros acc.
  - exists EmptyString, EmptyString. simpl. now rewrite append_nil_r.
  - simpl. destruct (c a) eqn:Hc.
    + destruct (IH (a :: acc)) as (text & rest & -> & Hall & Hns & Hs).
      exists (String a text), rest. simpl. rewrite Hc, Hall.
      repeat split; try assumption.
      rewrite Hs. clear Hs. simpl. rewrite of_list_app, append_assoc. simpl.
      destruct (k _ rest) eqn:E; [reflexivity|]. now apply Hk in E.
    + exists EmptyString, (String a s). simpl.
      now rewrite Hc, append_nil_r.
Qed.
End Inversion.

Lemma search_inv r : forall s gs,
  search r s = Some gs -> exists s' rest, match_here r s' = Some (gs, rest).
Proof.
  induction s as [|a s IH]; simpl; intros gs H.
  - destruct (match_here r EmptyString) as [[gs' rest]|] eqn:E; [|discriminate].
    inversion H; subst. eauto.
  - destruct (match_here r (String a s)) as [[gs' rest]|] eqn:E.
    + inversion H; subst. eauto.
    + now apply IH.
Qed.

End ReFacts.

(** One node of a pattern taken off a successful match: the text it
    consumed satisfies [node_ok], and the rest of the pattern matched
    what follows. *)
Ltac match_step H :=
  apply ReFacts.match_node_inv in H;
  let t := fresh "t" in
  let r := fresh "r" in
  let Hok := fresh "Hok" in
  destruct H as (t & r & _ & Hok & H); cbn [node_ok] in Hok;
  match type of H with
  | match ?m with _ => _ end = _ =>
      let E := fresh "E" in
      destruct m as [[? ?]|] eqn:E; [|discriminate];
      cbn [Re.captures app] in H; inversion H; subst; clear H;
      rename E into H; cbn [Re.match_here] in H
  end.

(** The groups of a header match: a unit and a non-empty run of
    digits. *)
Lemma header_groups line groups :
  Re.search re_header line = Some groups ->
  exists u n,
    groups = [u; n] /\ n <> EmptyString /\ str_all is_num n = true.
Proof.
  intro H. apply ReFacts.search_inv in H. destruct H as (s & rest & H).
  unfold re_header in H. cbn [Re.match_here] in H.
  repeat match_step H.
  apply ReFacts.match_node_inv in H. destruct H as (? & ? & _ & _ & H).
  cbn in H. inversion H; subst.
  match goal with
  | Hd : _ /\ str_all is_num _ = true |- _ => destruct Hd; eauto
  end.
Qed.

(** The groups of a coordinate match: three non-empty runs of
    characters among the minus sign, the digits and the point. *)
Lemma coords_groups line groups :
  Re.search re_coords line = Some groups ->
  exists a b c,
    groups = [a; b; c]
    /\ Forall (fun g => g <> EmptyString /\ str_all is_value_char g = true)
              groups.
Proof.
  intro H. apply ReFacts.search_inv in H. destruct H as (s & rest & H).
  unfold re_coords in H. cbn [Re.match_here] in H.
  repeat match_step H.
  apply ReFacts.match_node_inv in H. destruct H as (c & ? & _ & Hc & H).
  cbn in H, Hc. inversion H; subst.
  do 3 eexists. split; [reflexivity|].
  repeat constructor;
    match goal with
    | Hd : ?g <> EmptyString /\ _ |- ?g <> EmptyString => apply Hd
    | Hd : _ /\ str_all is_value_char ?g = true
      |- str_all is_value_char ?g = true => apply Hd
    end.
Qed.

(** ** [int] on a run of digits *)

Lemma digit_facts c :
  Py.is_digit c = true ->
  Py.is_space c = false /\ c <> "-"%char /\ c <> "+"%char
  /\ 0 <= Py.digit_val c <= 9.
Proof.
  destruct c as [[] [] [] [] [] [] [] []]; cbv; intro H;
    try discriminate H; repeat split; discriminate.
Qed.

Lemma rstrip_digits s : str_all Py.is_digit s = true -> Py.rstrip s = s.
Proof.
  induction s as [|c s IH]; simpl; [reflexivity|].
  intro H. apply andb_prop in H. destruct H as [Hc Hs].
  rewrite (IH Hs). destruct s; [|reflexivity].
  now destruct (digit_facts c Hc) as (-> & _).
Qed.

Lemma int_body_digits : forall s acc,
  str_all Py.is_digit s = true -> 0 <= acc ->
  exists z, Py.int_body acc s = Some z /\ 0 <= z.
Proof.
  induction s as [|c s IH]; cbn [Py.int_body str_all]; intros acc H Hacc.
  - eauto.
  - apply andb_prop in H. destruct H as [Hc Hs]. rewrite Hc.
    apply IH; [assumption|].
    destruct (digit_facts c Hc) as (_ & _ & _ & ?). lia.
Qed.

Lemma count_digits_run s :
  str_all Py.is_digit s = true ->
  Py.count_digits s = Z.of_nat (String.length s).
Proof.
  induction s as [|c s IH]; [reflexivity|].
  cbn [str_all Py.count_digits String.length]. intro H.
  apply andb_prop in H. destruct H as [Hc Hs].
  rewrite Hc, (IH Hs). lia.
Qed.

(** [int] on what the header's second group matched: a count that is
    not negative, and a [ValueError] when the group is longer than 4300
    digits. *)
Lemma int_of_digits s :
  s <> EmptyString -> str_all Py.is_digit s = true ->
  if 4300 <? Z.of_nat (String.length s) then Py.int s = None
  else exists z, Py.int s = Some z /\ 0 <= z.
Proof.
  intros Hne Hall. destruct s as [|c s]; [congruence|].
  pose proof Hall as Hall'. cbn [str_all] in Hall'.
  apply andb_prop in Hall'. destruct Hall' as [Hc Hs].
  destruct (digit_facts c Hc) as (Hsp & Hm & Hp & Hv).
  assert (Hstrip : Py.strip (String c s) = String c s).
  { unfold Py.strip. simpl Py.lstrip. rewrite Hsp. now apply rstrip_digits. }
  assert (Hint : Py.int (String c s) = Py.int_digits (String c s)).
  { unfold Py.int. rewrite Hstrip.
    destruct c as [[] [] [] [] [] [] [] []]; try reflexivity; congruence. }
  rewrite Hint. cbn [Py.int_digits]. rewrite Hc.
  destruct (int_body_digits s (Py.digit_val c) Hs) as (z & -> & Hz); [lia|].
  rewrite (count_digits_run _ Hall). change Py.max_str_digits with 4300.
  destruct (4300 <? Z.of_nat (String.length (String c s))); eauto.
Qed.

(** ** The scanner *)

Lemma scan_inv_all_complete datasets :
  scan_inv_from datasets 0 <-> Forall complete datasets.
Proof.
  induction datasets as [|d [|d' rest] IH]; simpl.
  - split; auto.
  - split; [intro; repeat constructor; assumption|].
    intro H. now inversion H.
  - split.
    + intros [Hd Hr]. constructor; [assumption|]. now apply IH.
    + intro H. inversion H; subst. split; [assumption|]. now apply IH.
Qed.

Lemma scan_inv_open datasets d ahead :
  Forall complete datasets -> awaiting ahead d ->
  scan_inv_from (datasets ++ [d]) ahead.
Proof.
  intros Hall Hd. induction Hall as [|x l Hx Hl IH]; simpl; [assumption|].
  destruct (l ++ [d])%list eqn:E; [now destruct l|].
  now split.
Qed.

Lemma append_line_inv line : forall datasets ahead,
  ahead <> 0 -> scan_inv_from datasets ahead ->
  exists datasets',
    append_line datasets line = Ok datasets'
    /\ scan_inv_from datasets' (ahead - 1).
Proof.
  induction datasets as [|d [|d' rest] IH]; intros ahead Hne Hinv.
  - simpl in Hinv. congruence.
  - simpl in *. eexists; split; [reflexivity|].
    destruct Hinv as (n & Hn & Hlen). exists n. cbn [ds_nkpt ds_lines].
    split; [assumption|]. rewrite length_app, Nat2Z.inj_add.
    change (Z.of_nat (List.length [line])) with 1. lia.
  - destruct Hinv as [Hd Hr].
    destruct (IH ahead Hne Hr) as (ds' & Happ & Hinv').
    change (append_line (d :: d' :: rest) line)
      with (rest' <- append_line (d' :: rest) line ;; Ok (d :: rest')).
    rewrite Happ. simpl. eexists; split; [reflexivity|].
    destruct ds'; [|now split].
    simpl in Happ. destruct rest; [discriminate|].
    destruct (append_line (d0 :: rest) line); discriminate.
Qed.

(** An iteration that does not raise keeps the invariant. *)
Lemma scan_line_inv st line st' :
  scan_inv st -> scan_line st line = Ok st' -> scan_inv st'.
Proof.
  destruct st as [datasets ahead]. intros [Hpos Hinv] H.
  cbn [fst snd] in Hpos, Hinv.
  unfold scan_line in H. destruct (Z.eqb_spec ahead 0) as [->|Hne].
  - destruct (Re.search re_header line) as [groups|] eqn:Hs.
    + destruct (header_groups _ _ Hs) as (u & n & -> & Hn & Hall).
      cbn [nth] in H. pose proof (int_of_digits n Hn Hall) as Hint.
      destruct (4300 <? Z.of_nat (String.length n)).
      * rewrite Hint in H. discriminate H.
      * destruct Hint as (z & Hint & Hz). rewrite Hint in H.
        inversion H; subst st'. split; cbn [fst snd]; [lia|].
        apply scan_inv_open; [now apply scan_inv_all_complete|].
        exists z. cbn [ds_nkpt ds_lines List.length].
        split; [assumption|lia].
    + inversion H; subst st'. now split.
  - destruct (append_line_inv line datasets ahead Hne Hinv) as (ds' & Happ & Hinv').
    rewrite Happ in H. cbn [bind] in H. inversion H; subst st'.
    split; cbn [fst snd]; [lia|assumption].
Qed.

(** An iteration raises in one place only: [int], on a count of more
    than 4300 digits. *)
Lemma scan_line_raises st line e :
  scan_inv st -> scan_line st line = Raise e ->
  e = ValueError
  /\ exists groups,
       Re.search re_header line = Some groups
       /\ 4300 < Z.of_nat (String.length (nth 1 groups EmptyString)).
Proof.
  destruct st as [datasets ahead]. intros [Hpos Hinv] H.
  cbn [fst snd] in Hpos, Hinv.
  unfold scan_line in H. destruct (Z.eqb_spec ahead 0) as [->|Hne].
  - destruct (Re.search re_header line) as [groups|] eqn:Hs; [|discriminate H].
    destruct (header_groups _ _ Hs) as (u & n & -> & Hn & Hall).
    cbn [nth] in H |- *. pose proof (int_of_digits n Hn Hall) as Hint.
    destruct (Z.ltb_spec 4300 (Z.of_nat (String.length n))) as [Hlong|_].
    + rewrite Hint in H. inversion H. split; [reflexivity|]. eauto.
    + destruct Hint as (z & Hint & _). rewrite Hint in H. discriminate H.
  - destruct (append_line_inv line datasets ahead Hne Hinv) as (ds' & Happ & _).
    rewrite Happ in H. discriminate H.
Qed.

Lemma scan_from_inv file : forall st st',
  scan_inv st -> scan_from st file = Ok st' -> scan_inv st'.
Proof.
  induction file as [|line file IH]; intros st st' Hinv H; cbn [scan_from] in H.
  - now inversion H; subst.
  - destruct (scan_line st line) as [st1|] eqn:Hl; [|discriminate H].
    cbn [bind] in H. apply (IH st1); [|assumption].
    now apply (scan_line_inv st line).
Qed.

Lemma scan_from_raises file : forall st e,
  scan_inv st -> scan_from st file = Raise e ->
  e = ValueError
  /\ exists line groups,
       In line file /\ Re.search re_header line = Some groups
       /\ 4300 < Z.of_nat (String.length (nth 1 groups EmptyString)).
Proof.
  induction file as [|line file IH]; intros st e Hinv H; cbn [scan_from] in H.
  - discriminate H.
  - destruct (scan_line st line) as [st1|e1] eqn:Hl; cbn [bind] in H.
    + destruct (IH st1 e) as (-> & l & g & Hin & Hg);
        [now apply (scan_line_inv st line)|assumption|].
      split; [reflexivity|]. exists l, g. split; [now right|assumption].
    + inversion H; subst e1.
      destruct (scan_line_raises _ _ _ Hinv Hl) as (-> & g & Hg).
      split; [reflexivity|]. exists line, g. split; [now left|assumption].
Qed.

(** The loop starts in a state that satisfies the invariant. *)
Lemma scan_inv_init : scan_inv ([], 0).
Proof. split; [cbn; lia|reflexivity]. Qed.

(** Datasets that are already closed are left alone: scanning from
    [pre ++ cur] is scanning from [cur], with [pre] put back in front,
    as long as the dataset being filled is in [cur]. *)
Lemma append_line_frame pre line : forall cur,
  cur <> [] ->
  append_line (pre ++ cur) line
  = (r <- append_line cur line ;; Ok (pre ++ r)%list).
Proof.
  induction pre as [|p pre IH]; intros cur Hne; simpl app.
  - now destruct (append_line cur line).
  - change (append_line (p :: pre ++ cur) line)
      with (match (pre ++ cur)%list with
            | [] => Ok [mkDataset (ds_unit p) (ds_nkpt p) (ds_lines p ++ [line])]
            | _ :: _ => rest' <- append_line (pre ++ cur) line ;; Ok (p :: rest')
            end).
    destruct (pre ++ cur)%list eqn:E.
    + apply app_eq_nil in E. now destruct E.
    + rewrite <- E, (IH cur Hne).
      now destruct (append_line cur line).
Qed.

Lemma append_line_nonempty line : forall cur r,
  append_line cur line = Ok r -> r <> [].
Proof.
  intros [|d [|d' rest]] r H.
  - discriminate H.
  - inversion H. discriminate.
  - change (append_line (d :: d' :: rest) line)
      with (rest' <- append_line (d' :: rest) line ;; Ok (d :: rest')) in H.
    destruct (append_line (d' :: rest) line); simpl in H; [|discriminate H].
    inversion H. discriminate.
Qed.

Lemma scan_line_frame pre cur ahead line :
  ahead = 0 \/ cur <> [] ->
  scan_line (pre ++ cur, ahead) line = framed pre (scan_line (cur, ahead) line)
  /\ forall st', scan_line (cur, ahead) line = Ok st' ->
                 snd st' = 0 \/ fst st' <> [].
Proof.
  intro Hc. unfold scan_line, framed.
  destruct (Z.eqb_spec ahead 0) as [->|Hne].
  - destruct (Re.search re_header line) as [groups|]; simpl.
    + destruct (Py.int (nth 1 groups EmptyString)); simpl.
      * rewrite <- app_assoc. split; [reflexivity|].
        intros st' H. inversion H. right. simpl. now destruct cur.
      * split; [reflexivity|intros ? H; discriminate H].
    + split; [reflexivity|]. intros st' H. inversion H. now left.
  - destruct Hc as [?|Hcur]; [contradiction|].
    rewrite (append_line_frame pre line cur Hcur).
    destruct (append_line cur line) as [r|e] eqn:E; simpl.
    + split; [reflexivity|]. intros st' H. inversion H. right. simpl.
      eapply append_line_nonempty; eassumption.
    + split; [reflexivity|intros ? H; discriminate H].
Qed.

Lemma scan_from_frame pre file : forall cur ahead,
  ahead = 0 \/ cur <> [] ->
  scan_from (pre ++ cur, ahead) file = framed pre (scan_from (cur, ahead) file).
Proof.
  induction file as [|line file IH]; intros cur ahead Hc; cbn [scan_from].
  - reflexivity.
  - destruct (scan_line_frame pre cur ahead line Hc) as [Hstep Hnext].
    rewrite Hstep.
    destruct (scan_line (cur, ahead) line) as [[cur' ahead']|e]; simpl.
    + apply IH. now apply (Hnext (cur', ahead')).
    + reflexivity.
Qed.

Lemma scan_inv_last datasets ahead :
  scan_inv_from datasets ahead -> ahead <> 0 ->
  exists init d, datasets = (init ++ [d])%list /\ awaiting ahead d.
Proof.
  induction datasets as [|d [|d' rest] IH]; intros Hinv Hne.
  - simpl in Hinv. congruence.
  - exists [], d. now split.
  - destruct Hinv as [_ Hr]. destruct (IH Hr Hne) as (init & l & E & Hl).
    exists (d :: init), l. rewrite E. now split.
Qed.

(** ** Numeric tokens *)

Lemma tokens_of_skip a s toks :
  is_value_char a = false -> tokens_of s toks -> tokens_of (String a s) toks.
Proof.
  intros Ha H. destruct H as [s Hs|sep tok rest toks Hsep Hne Hall Hns Hr].
  - apply tokens_none. simpl. unfold not_value_char at 1. now rewrite Ha.
  - change (String a (sep ++ tok ++ rest))%string
      with (String a sep ++ tok ++ rest)%string.
    apply tokens_cons; try assumption.
    simpl. unfold not_value_char at 1. now rewrite Ha.
Qed.

Lemma match_value_some a s :
  is_value_char a = true ->
  exists text rest,
    s = (text ++ rest)%string /\ str_all is_value_char text = true
    /\ not_starting is_value_char rest = true
    /\ Re.match_here re_value (String a s) = Some ([String a text], rest).
Proof.
  intro Ha. unfold re_value. cbn [Re.match_here Re.match_node]. rewrite Ha.
  match goal with
  | |- context [Re.star _ ?k _ _] =>
      destruct (ReFacts.star_greedy is_value_char k) with (s := s) (acc := [a])
        as (text & rest & E & Hall & Hns & Hs); [discriminate|]
  end.
  exists text, rest. rewrite Hs. repeat split; assumption.
Qed.

Lemma match_value_none s :
  not_starting is_value_char s = true -> Re.match_here re_value s = None.
Proof.
  destruct s as [|a s]; [reflexivity|]. simpl. intro H.
  apply negb_true_iff in H. now rewrite H.
Qed.

Lemma finditer_value : forall fuel s,
  (String.length s < fuel)%nat ->
  tokens_of s (map (fun gs => nth 0 gs EmptyString) (Re.finditer fuel re_value s)).
Proof.
  induction fuel as [|fuel IH]; intros s Hlen; [lia|].
  cbn [Re.finditer]. destruct s as [|a s].
  - rewrite match_value_none by reflexivity. now apply tokens_none.
  - destruct (is_value_char a) eqn:Ha.
    + destruct (match_value_some a s Ha) as (text & rest & E & Hall & Hns & ->).
      subst s. simpl String.length in *. rewrite append_length in *.
      replace (_ <? _)%nat with true by (symmetry; apply Nat.ltb_lt; lia).
      cbn [map nth].
      change (String a (text ++ rest))%string
        with (EmptyString ++ String a text ++ rest)%string.
      apply tokens_cons; try assumption; try reflexivity; try discriminate.
      * simpl. now rewrite Ha.
      * apply IH. lia.
    + rewrite match_value_none by (simpl; now rewrite Ha).
      apply tokens_of_skip; [assumption|]. apply IH. simpl in Hlen. lia.
Qed.

Lemma findall_value line : tokens_of line (Re.findall re_value line).
Proof. apply finditer_value. lia. Qed.

(** ** The converter *)

Section ConverterRows.
Context {libm : Libm}.

(** A coordinate line adds four numbers to [out_line]: the path length
    and the three coordinates. *)
Lemma coords_line_out st groups st' :
  coords_line st groups = Ok st' ->
  exists x y z,
    out_line st' = (out_line st ++ [Num (path_length st'); Num x; Num y; Num z])%list
    /\ group_float groups 0 = Ok x /\ group_float groups 1 = Ok y
    /\ group_float groups 2 = Ok z
    /\ k_old st' = Some (x, y, z).
Proof.
  unfold coords_line, bind. intro H.
  repeat
    match type of H with
    | context [match ?m with _ => _ end] =>
        destruct m eqn:?; try discriminate H
    end.
  inversion H; subst; cbn [out_line path_length k_old].
  do 3 eexists. repeat split; reflexivity || eassumption.
Qed.

(** The rows written are one for each line of the part of the dataset
    that was processed that is not a coordinate line; the part not
    processed starts with the coordinate line that raised. *)
Lemma convert_lines_rows : forall lines st,
  exists done rest,
    lines = (done ++ rest)%list
    /\ List.length (fst (convert_lines st lines))
       = List.length (values_lines done)
    /\ match snd (convert_lines st lines) with
       | None => rest = []
       | Some _ => exists c rest', rest = c :: rest' /\ is_coords c = true
       end.
Proof.
  induction lines as [|line lines IH]; intro st.
  - exists [], []. simpl. auto.
  - cbn [convert_lines].
    destruct (Re.search re_coords line) as [groups|] eqn:Hs.
    + assert (Hc : is_coords line = true) by (unfold is_coords; now rewrite Hs).
      destruct (coords_line st groups) as [st'|e].
      * destruct (IH st') as (done & rest & -> & Hlen & Hrest).
        exists (line :: done), rest. unfold values_lines. cbn [filter app].
        rewrite Hc. repeat split; assumption.
      * exists [], (line :: lines). simpl. repeat split. eauto.
    + assert (Hc : is_coords line = false) by (unfold is_coords; now rewrite Hs).
      unfold values_line.
      destruct (IH (mkConv (path_length st) [] (k st) (k_old st)))
        as (done & rest & -> & Hlen & Hrest).
      destruct (convert_lines _ (done ++ rest)) as [rows e].
      exists (line :: done), rest. unfold values_lines in *.
      cbn [filter app fst snd List.length] in *.
      rewrite Hc. cbn [negb List.length]. repeat split; auto.
Qed.


End ConverterRows.

(** ** Binary64 arithmetic

    What the converter needs of the floating-point operations, from
    their specification in [SpecFloat]. *)

Module FloatFacts.

Lemma fexp_eq e : fexp64 e = Z.max (e - 53) (-1074).
Proof. reflexivity. Qed.

(** *** Digits *)

Lemma digits2_bounds p :
  2 ^ (Zpos (digits2_pos p) - 1) <= Zpos p < 2 ^ Zpos (digits2_pos p).
Proof.
  induction p as [p IH|p IH|]; cbn [digits2_pos].
  - rewrite Pos2Z.inj_succ, Z.pow_succ_r by lia.
    replace (Z.succ (Zpos (digits2_pos p)) - 1) with (Z.succ (Zpos (digits2_pos p) - 1)) by lia.
    rewrite Z.pow_succ_r by lia. lia.
  - rewrite Pos2Z.inj_succ, Z.pow_succ_r by lia.
    replace (Z.succ (Zpos (digits2_pos p)) - 1) with (Z.succ (Zpos (digits2_pos p) - 1)) by lia.
    rewrite Z.pow_succ_r by lia. lia.
  - simpl. lia.
Qed.

(** More digits are needed for a larger number. *)
Lemma digits2_le p q k :
  0 <= k -> Zpos p * 2 ^ k <= Zpos q ->
  Zpos (digits2_pos p) + k <= Zpos (digits2_pos q).
Proof.
  intros Hk Hle.
  pose proof (digits2_bounds p) as [Hp _].
  pose proof (digits2_bounds q) as [_ Hq].
  assert (H : 2 ^ (Zpos (digits2_pos p) - 1 + k) < 2 ^ Zpos (digits2_pos q)).
  { rewrite Z.pow_add_r by lia.
    eapply Z.le_lt_trans; [|exact Hq].
    eapply Z.le_trans; [|exact Hle].
    apply Z.mul_le_mono_nonneg_r; [apply Z.pow_nonneg; lia|assumption]. }
  apply Z.pow_lt_mono_r_iff in H; lia.
Qed.

(** *** Shifts *)

Lemma shr_1_m mrs : 0 <= shr_m mrs -> shr_m (shr_1 mrs) = shr_m mrs / 2.
Proof.
  destruct mrs as [m r s]. cbn [shr_m]. intro Hm. rewrite <- Z.div2_div.
  destruct m as [|[p|p|]|p]; try reflexivity. lia.
Qed.

Lemma iter_shr_m p : forall mrs,
  0 <= shr_m mrs ->
  shr_m (iter_pos shr_1 p mrs) = shr_m mrs / 2 ^ Zpos p.
Proof.
  assert (Hpow : forall q, 0 < 2 ^ Zpos q) by (intro; apply Z.pow_pos_nonneg; lia).
  induction p as [p IH|p IH|]; intros mrs Hm; cbn [iter_pos].
  - assert (H1 : 0 <= shr_m (shr_1 mrs))
      by (rewrite shr_1_m by assumption; apply Z.div_pos; lia).
    assert (H2 : 0 <= shr_m (iter_pos shr_1 p (shr_1 mrs)))
      by (rewrite IH by assumption; apply Z.div_pos; [assumption|apply Hpow]).
    rewrite IH, IH, shr_1_m by assumption.
    pose proof (Hpow p).
    rewrite !Z.div_div by lia. f_equal.
    replace (Zpos p~1) with (Zpos p + Zpos p + 1) by lia.
    rewrite !Z.pow_add_r, Z.pow_1_r by lia. ring.
  - assert (H2 : 0 <= shr_m (iter_pos shr_1 p mrs))
      by (rewrite IH by assumption; apply Z.div_pos; [assumption|apply Hpow]).
    rewrite IH, IH by assumption.
    pose proof (Hpow p).
    rewrite !Z.div_div by lia. f_equal.
    replace (Zpos p~0) with (Zpos p + Zpos p) by lia.
    rewrite Z.pow_add_r by lia. ring.
  - rewrite shr_1_m by assumption. reflexivity.
Qed.

Lemma shr_spec mrs e n :
  0 <= shr_m mrs ->
  shr_m (fst (shr mrs e n)) = shr_m mrs / 2 ^ Z.max n 0
  /\ snd (shr mrs e n) = e + Z.max n 0.
Proof.
  intro Hm. destruct n as [|p|p]; cbn [shr fst snd].
  - change (Z.max 0 0) with 0. rewrite Z.pow_0_r, Z.div_1_r. lia.
  - rewrite Z.max_l by lia. split; [now apply iter_shr_m|reflexivity].
  - rewrite Z.max_r by lia. rewrite Z.pow_0_r, Z.div_1_r. lia.
Qed.

Lemma shr_fexp_spec m e l :
  0 <= m ->
  let n := Z.max (fexp64 (Zdigits2 m + e) - e) 0 in
  shr_m (fst (shr_fexp prec emax m e l)) = m / 2 ^ n
  /\ snd (shr_fexp prec emax m e l) = e + n.
Proof.
  intros Hm n. unfold shr_fexp.
  assert (Hr : shr_m (shr_record_of_loc m l) = m) by (now destruct l as [|[]]).
  pose proof (shr_spec (shr_record_of_loc m l) e
                (fexp64 (Zdigits2 m + e) - e)) as H.
  rewrite Hr in H. now apply H.
Qed.

Lemma round_nearest_even_bounds m l :
  m <= round_nearest_even m l <= m + 1.
Proof.
  destruct l as [|[]]; cbn [round_nearest_even]; try lia.
  destruct (Z.even m); lia.
Qed.

(** What [binary_round_aux] returns, for a mantissa that is not
    negative: the mantissa is cut down to the format's precision, moved
    up by at most one, and cut down once more. *)
Lemma binary_round_aux_cases sx mx ex lx :
  0 <= mx ->
  let n1 := Z.max (fexp64 (Zdigits2 mx + ex) - ex) 0 in
  let e1 := ex + n1 in
  exists m2,
    mx / 2 ^ n1 <= m2 <= mx / 2 ^ n1 + 1 /\
    let n2 := Z.max (fexp64 (Zdigits2 m2 + e1) - e1) 0 in
    binary_round_aux prec emax sx mx ex lx =
      match m2 / 2 ^ n2 with
      | Z0 => S754_zero sx
      | Zpos m =>
          if e1 + n2 <=? emax - prec then S754_finite sx m (e1 + n2)
          else S754_infinity sx
      | Zneg _ => S754_nan
      end.
Proof.
  intros Hm n1 e1. unfold binary_round_aux.
  destruct (shr_fexp_spec mx ex lx Hm) as [Hm1 He1].
  destruct (shr_fexp prec emax mx ex lx) as [mrs' e'] eqn:E1.
  cbn [fst snd] in Hm1, He1. fold n1 in Hm1, He1. fold e1 in He1. subst e'.
  set (m2 := round_nearest_even (shr_m mrs') (loc_of_shr_record mrs')).
  pose proof (round_nearest_even_bounds (shr_m mrs') (loc_of_shr_record mrs')) as Hb.
  fold m2 in Hb. rewrite Hm1 in Hb.
  assert (H0 : 0 <= mx / 2 ^ n1) by (apply Z.div_pos; [assumption|apply Z.pow_pos_nonneg; lia]).
  assert (Hm2 : 0 <= m2) by lia.
  destruct (shr_fexp_spec m2 e1 loc_Exact Hm2) as [Hm3 He3].
  destruct (shr_fexp prec emax m2 e1 loc_Exact) as [mrs'' e''] eqn:E2.
  cbn [fst snd] in Hm3, He3. subst e''. rewrite Hm3.
  exists m2. split; [assumption|reflexivity].
Qed.

(** *** Signs *)

Lemma binary_round_aux_number sx mx ex lx :
  0 <= mx ->
  number_sf (binary_round_aux prec emax sx mx ex lx)
  /\ (sx = false -> nonneg_sf (binary_round_aux prec emax sx mx ex lx)).
Proof.
  intro Hm. destruct (binary_round_aux_cases sx mx ex lx Hm) as (m2 & Hb & ->).
  set (n1 := Z.max _ 0) in *.
  assert (0 <= mx / 2 ^ n1) by (apply Z.div_pos; [assumption|apply Z.pow_pos_nonneg; lia]).
  match goal with
  | |- context [m2 / ?d] =>
      assert (Hq : 0 <= m2 / d) by (apply Z.div_pos; [lia|apply Z.pow_pos_nonneg; lia]);
      destruct (m2 / d) as [|q|q]; [| |lia]
  end.
  - split; [exact I|intros ->; exact I].
  - destruct (_ <=? _); (split; [exact I|intros ->; exact I]).
Qed.

(** *** Alignment *)

Lemma iter_xO_spec mx d :
  Zpos (Pos.iter xO mx d) = Zpos mx * 2 ^ Zpos d
  /\ Zpos (digits2_pos (Pos.iter xO mx d)) = Zpos (digits2_pos mx) + Zpos d.
Proof.
  induction d as [|d IH] using Pos.peano_ind.
  - cbn [Pos.iter digits2_pos]. rewrite Pos2Z.inj_succ. lia.
  - rewrite Pos.iter_succ. cbn [digits2_pos].
    rewrite !Pos2Z.inj_succ, Pos2Z.inj_xO, Z.pow_succ_r by lia.
    destruct IH as [-> ->]. lia.
Qed.

Lemma shl_align_spec mx ex ex' :
  snd (shl_align mx ex ex') = Z.min ex ex'
  /\ Zpos (fst (shl_align mx ex ex')) = Zpos mx * 2 ^ (ex - Z.min ex ex')
  /\ Zpos (digits2_pos (fst (shl_align mx ex ex'))) + Z.min ex ex'
     = Zpos (digits2_pos mx) + ex.
Proof.
  unfold shl_align. destruct (ex' - ex) as [|d|d] eqn:E; cbn [fst snd].
  - rewrite Z.min_l by lia. rewrite Z.sub_diag. simpl. lia.
  - rewrite Z.min_l by lia. rewrite Z.sub_diag. simpl. lia.
  - rewrite Z.min_r by lia. destruct (iter_xO_spec mx d) as [-> ->].
    replace (ex - ex') with (Zpos d) by lia. lia.
Qed.

Lemma pow2_le_div p n :
  0 <= n < Zpos (digits2_pos p) -> 1 <= Zpos p / 2 ^ n.
Proof.
  intro Hn. apply Z.div_le_lower_bound; [apply Z.pow_pos_nonneg; lia|].
  rewrite Z.mul_1_r. pose proof (digits2_bounds p) as [Hp _].
  eapply Z.le_trans; [|exact Hp]. apply Z.pow_le_mono_r; lia.
Qed.

(** *** Rounding does not go below a number of the format

    [ma * 2^ea] is a number of the format that is not above
    [M * 2^E]: then the rounding of [M * 2^E] is not below it either,
    in the order [SFcompare] uses (exponents first, then mantissas). *)
Lemma binary_round_lower (M : positive) (E : Z) (ma : positive) (ea : Z) :
  canonical_mantissa prec emax ma ea = true ->
  E <= ea ->
  Zpos ma * 2 ^ (ea - E) <= Zpos M ->
  match binary_round prec emax false M E with
  | S754_finite false m e => ea < e \/ (e = ea /\ (ma <= m)%positive)
  | S754_infinity false => True
  | _ => False
  end.
Proof.
  intros Hcan HE HM. unfold canonical_mantissa in Hcan.
  apply Z.eqb_eq in Hcan. rewrite fexp_eq in Hcan.
  pose proof (digits2_le ma M (ea - E) ltac:(lia) HM) as Hd.
  unfold binary_round.
  set (F := fexp64 (Zpos (digits2_pos M) + E)).
  assert (HF : F = Z.max (Zpos (digits2_pos M) + E - 53) (-1074)) by reflexivity.
  destruct (shl_align_spec M E F) as (He & Hmz & Hdz).
  destruct (shl_align M E F) as [mz ez]. cbn [fst snd] in He, Hmz, Hdz.
  rewrite Z.min_l in He, Hmz, Hdz by lia. subst ez.
  rewrite Z.sub_diag, Z.pow_0_r, Z.mul_1_r in Hmz. injection Hmz as ->.
  clear Hdz.
  destruct (binary_round_aux_cases false (Zpos M) E loc_Exact ltac:(lia))
    as (m2 & Hb & ->).
  cbn [Zdigits2] in *. fold F in Hb |- *.
  replace (E + Z.max (F - E) 0) with F in * by lia.
  replace (Z.max (F - E) 0) with (F - E) in * by lia.
  set (m1 := Zpos M / 2 ^ (F - E)) in *.
  assert (Hm1 : 1 <= m1 /\ (F = ea -> Zpos ma <= m1)).
  { destruct (Z.eq_dec F ea) as [Heq|Hne].
    - assert (Zpos ma <= m1).
      { unfold m1. rewrite Heq.
        apply Z.div_le_lower_bound; [apply Z.pow_pos_nonneg; lia|lia]. }
      lia.
    - split; [|contradiction]. apply pow2_le_div. lia. }
  destruct m2 as [|p2|p2]; [lia| |lia]. cbn [Zdigits2].
  set (n2 := Z.max (fexp64 (Zpos (digits2_pos p2) + F) - F) 0).
  assert (Hn2 : n2 = 0 \/ (0 < n2 /\ n2 = Zpos (digits2_pos p2) - 53)).
  { unfold n2. rewrite fexp_eq. lia. }
  assert (Hq : 1 <= Zpos p2 / 2 ^ n2).
  { destruct Hn2 as [->|[? ?]].
    - rewrite Z.pow_0_r, Z.div_1_r. lia.
    - apply pow2_le_div. lia. }
  destruct (Zpos p2 / 2 ^ n2) as [|q|q] eqn:Eq; [lia| |lia].
  destruct (F + n2 <=? emax - prec); [|exact I].
  destruct Hn2 as [Hz|[Hpos _]].
  - rewrite Hz, Z.pow_0_r, Z.div_1_r in Eq. injection Eq as <-.
    rewrite Hz, Z.add_0_r.
    destruct (Z.eq_dec F ea) as [Heq|Hne]; [right|left; lia].
    split; [assumption|]. destruct Hm1 as [_ Hm1]. specialize (Hm1 Heq).
    apply Pos2Z.pos_le_pos. lia.
  - left. lia.
Qed.

(** *** Addition, subtraction, square and square root *)

Lemma SFcompare_refl f : number_sf f -> SFcompare f f = Some Eq.
Proof.
  destruct f as [s|s| |s m e]; cbn; try tauto; intros _.
  - now destruct s.
  - rewrite Z.compare_refl.
    change (Pos.compare_cont Eq m m) with (m ?= m)%positive.
    rewrite Pos.compare_refl. now destruct s.
Qed.

Lemma SFadd_nonneg a b :
  valid_binary a = true -> nonneg_sf a -> nonneg_sf b ->
  nonneg_sf (SF64add a b) /\ SFleb a (SF64add a b) = true.
Proof.
  intros Hv Ha Hb. unfold SFleb.
  destruct a as [sa|[]| |[] ma ea]; try contradiction;
    destruct b as [sb|[]| |[] mb eb]; try contradiction;
    try (cbn; split; [exact I|reflexivity]).
  - destruct sa, sb; cbn; auto.
  - unfold SF64add. cbn [SFadd]. split; [exact I|].
    now rewrite (SFcompare_refl (S754_finite false ma ea) I).
  - unfold SF64add. cbn [SFadd cond_Zopp].
    set (ez := Z.min ea eb).
    destruct (shl_align_spec ma ea ez) as (_ & Hma & _).
    rewrite Z.min_r in Hma by (unfold ez; lia).
    cbn [binary_normalize Z.add].
    cbn [valid_binary] in Hv. unfold bounded in Hv.
    apply andb_prop in Hv. destruct Hv as [Hcan _].
    pose proof (binary_round_lower
                  (fst (shl_align ma ea ez) + fst (shl_align mb eb ez)) ez
                  ma ea Hcan ltac:(unfold ez; lia) ltac:(lia)) as H.
    destruct (binary_round _ _ _ _ _) as [s|[]| |[] m e]; try contradiction.
    + split; [exact I|reflexivity].
    + split; [exact I|]. cbn [SFcompare].
      destruct H as [Hlt|[-> Hle]].
      * apply Z.compare_lt_iff in Hlt. now rewrite Hlt.
      * rewrite Z.compare_refl.
        change (Pos.compare_cont Eq ma m) with (ma ?= m)%positive.
        destruct (ma ?= m)%positive eqn:E; try reflexivity.
        now apply Hle in E.
Qed.

Lemma binary_normalize_number m e :
  number_sf (binary_normalize prec emax m e false).
Proof.
  destruct m as [|p|p]; cbn [binary_normalize]; [exact I| |];
    unfold binary_round;
    destruct (shl_align _ _ _) as [mz ez];
    now apply binary_round_aux_number.
Qed.

Lemma SFsub_finite a b :
  finite_sf a -> finite_sf b -> number_sf (SF64sub a b).
Proof.
  intros Ha Hb. unfold SF64sub.
  destruct a as [sa|sa| |sa ma ea]; try contradiction;
    destruct b as [sb|sb| |sb mb eb]; try contradiction; cbn [SFsub];
    try exact I.
  - now destruct sa, sb.
  - apply binary_normalize_number.
Qed.

Lemma SFsub_diag a : finite_sf a -> SF64sub a a = S754_zero false.
Proof.
  intro Ha. unfold SF64sub.
  destruct a as [sa|sa| |sa ma ea]; try contradiction; cbn [SFsub].
  - now destruct sa.
  - now rewrite Z.sub_diag.
Qed.

Lemma SFmul_diag_nonneg a : number_sf a -> nonneg_sf (SF64mul a a).
Proof.
  intro Ha. unfold SF64mul.
  destruct a as [sa|sa| |sa ma ea]; try contradiction; cbn [SFmul].
  - exact I.
  - now destruct sa.
  - apply binary_round_aux_number; [lia|now destruct sa].
Qed.

Lemma SFsqrt_nonneg a : nonneg_sf a -> nonneg_sf (SF64sqrt a).
Proof.
  intro Ha. unfold SF64sqrt.
  destruct a as [sa|[]| |[] ma ea]; try contradiction; cbn [SFsqrt];
    try exact I.
  unfold SFsqrt_core_binary.
  match goal with
  | |- context [Z.sqrtrem ?m'] =>
      pose proof (Z.sqrtrem_sqrt m') as Hq;
      pose proof (Z.sqrt_nonneg m');
      destruct (Z.sqrtrem m') as [q r]
  end.
  cbn [fst] in Hq. apply binary_round_aux_number; [lia|reflexivity].
Qed.

(** *** The same on the primitive floats *)

Lemma is_nan_number x : number x -> is_nan x = false.
Proof.
  intro H. unfold is_nan. rewrite eqb_spec. unfold SFeqb.
  now rewrite (SFcompare_refl _ H).
Qed.

Lemma is_finite_spec x : is_finite x = true -> finite_sf (Prim2SF x).
Proof.
  unfold is_finite, is_nan, is_infinity. rewrite !eqb_spec, abs_spec.
  change (Prim2SF infinity) with (S754_infinity false).
  destruct (Prim2SF x) as [s|[]| |s m e]; cbn; try tauto;
    intro H; discriminate H.
Qed.

Lemma add_nonneg x y :
  nonneg x -> nonneg y -> nonneg (x + y) /\ (x <=? x + y)%float = true.
Proof.
  unfold nonneg. rewrite leb_spec, add_spec.
  apply SFadd_nonneg, Prim2SF_valid.
Qed.

Lemma sub_finite x y :
  is_finite x = true -> is_finite y = true -> number (x - y).
Proof.
  intros Hx Hy. unfold number. rewrite sub_spec.
  apply SFsub_finite; now apply is_finite_spec.
Qed.

Lemma sub_diag x : is_finite x = true -> (x - x)%float = zero.
Proof.
  intro Hx. apply Prim2SF_inj. rewrite sub_spec.
  now apply SFsub_diag, is_finite_spec.
Qed.

Lemma mul_diag_nonneg x : number x -> nonneg (x * x).
Proof.
  unfold nonneg, number. rewrite mul_spec. apply SFmul_diag_nonneg.
Qed.

Lemma sqrt_nonneg x : nonneg x -> nonneg (PrimFloat.sqrt x).
Proof.
  unfold nonneg. rewrite sqrt_spec. apply SFsqrt_nonneg.
Qed.

End FloatFacts.

(** ** More on binary64 numbers *)

Lemma is_nan_spec x : is_nan x = true -> Prim2SF x = S754_nan.
Proof.
  unfold is_nan. rewrite eqb_spec. unfold SFeqb. intro H.
  destruct (Prim2SF x) as [s|s| |s m e] eqn:E; try reflexivity;
    rewrite FloatFacts.SFcompare_refl in H by exact I; discriminate H.
Qed.

Lemma is_nan_false x : is_nan x = false -> number x.
Proof.
  unfold is_nan, number. rewrite eqb_spec. intro H.
  destruct (Prim2SF x); try exact I. discriminate H.
Qed.

Lemma is_infinity_spec x :
  is_infinity x = true -> exists s, Prim2SF x = S754_infinity s.
Proof.
  unfold is_infinity. rewrite eqb_spec, abs_spec.
  change (Prim2SF infinity) with (S754_infinity false).
  destruct (Prim2SF x) as [s|s| |s m e]; cbn; intro H; try discriminate H. eauto.
Qed.

Lemma is_zero_spec x : is_zero x = true -> exists s, Prim2SF x = S754_zero s.
Proof.
  unfold is_zero. rewrite eqb_spec.
  change (Prim2SF zero) with (S754_zero false).
  destruct (Prim2SF x) as [s|[]| |[] m e]; cbn; intro H; try discriminate H. eauto.
Qed.

Lemma nonneg_is_nonneg_or_nan x : nonneg x -> nonneg_or_nan x.
Proof.
  unfold nonneg, nonneg_or_nan. destruct (Prim2SF x); auto.
Qed.

Lemma add_nonneg_or_nan x y :
  nonneg_or_nan x -> nonneg_or_nan y -> nonneg_or_nan (x + y).
Proof.
  unfold nonneg_or_nan. intros Hx Hy.
  destruct (Prim2SF x) as [sx|sx| |sx mx ex] eqn:Ex;
    try (rewrite add_spec, Ex; reflexivity);
    (destruct (Prim2SF y) as [sy|sy| |sy my ey] eqn:Ey;
     [| |rewrite add_spec, Ex, Ey; now destruct sx|]);
    (assert (H : nonneg (x + y))
       by (apply FloatFacts.add_nonneg; unfold nonneg;
           [now rewrite Ex|now rewrite Ey]);
     unfold nonneg in H; destruct (Prim2SF (x + y)); auto).
Qed.

(** [math.sqrt] does not raise on such a number. *)
Lemma sqrt_never_raises x : nonneg_or_nan x -> Py.sqrt x = Ok (PrimFloat.sqrt x).
Proof.
  unfold nonneg_or_nan, Py.sqrt. rewrite ltb_spec.
  change (Prim2SF 0) with (S754_zero false).
  destruct (Prim2SF x) as [s|[]| |[] m e]; cbn; try reflexivity; contradiction.
Qed.

Lemma nonneg_leb x : nonneg x -> (0 <=? x)%float = true.
Proof.
  unfold nonneg. rewrite leb_spec.
  change (Prim2SF 0) with (S754_zero false).
  destruct (Prim2SF x) as [s|[]| |[] m e]; cbn; try reflexivity; contradiction.
Qed.

Lemma leb_nonneg x : (0 <=? x)%float = true -> nonneg x.
Proof.
  unfold nonneg. rewrite leb_spec.
  change (Prim2SF 0) with (S754_zero false).
  destruct (Prim2SF x) as [s|[]| |[] m e]; cbn; intro H;
    try exact I; discriminate H.
Qed.

(** What [float_pow] hands to [pow]: a finite number above zero. *)
Lemma abs_finite_pos x :
  is_nan x = false -> is_infinity x = false -> is_zero x = false ->
  is_finite (abs x) = true /\ (0 <? abs x)%float = true.
Proof.
  unfold is_finite, is_nan, is_infinity, is_zero.
  rewrite ltb_spec, !eqb_spec, !abs_spec.
  change (Prim2SF infinity) with (S754_infinity false).
  change (Prim2SF zero) with (S754_zero false).
  change (Prim2SF 0) with (S754_zero false).
  destruct (Prim2SF x) as [s|s| |s m e]; cbn [SFabs]; intros Hn Hi Hz.
  - now destruct s.
  - now destruct s.
  - discriminate Hn.
  - unfold SFeqb at 1.
    rewrite (FloatFacts.SFcompare_refl (S754_finite false m e) I).
    split; reflexivity.
Qed.

(** ** The library that rounds correctly *)

Lemma rounded_pow_2_range v :
  is_finite v = true -> (0 <? v)%float = true ->
  (0 <=? fst (rounded_pow_2 v))%float = true.
Proof.
  intros Hf _. cbn [rounded_pow_2 fst]. apply nonneg_leb.
  apply FloatFacts.mul_diag_nonneg.
  apply FloatFacts.is_finite_spec in Hf. unfold number.
  now destruct (Prim2SF v).
Qed.

Lemma rounded_pow_2_errno v :
  is_finite v = true -> (0 <? v)%float = true ->
  snd (rounded_pow_2 v) <> EOther.
Proof.
  intros _ _. cbn [rounded_pow_2 snd].
  now destruct (is_infinity (v * v) || is_zero (v * v)).
Qed.

Definition rounded : Libm :=
  {| c_pow_2 := rounded_pow_2;
     c_pow_2_range := rounded_pow_2_range;
     c_pow_2_errno := rounded_pow_2_errno |}.

(** ** [x ** 2] *)

Section Pow2.
Context {libm : Libm}.

(** [x ** 2], when it does not raise, is [x] itself for a NaN and a
    number that is not negative otherwise. *)
Lemma pow2_cases x y :
  Py.pow2 x = Ok y -> (is_nan x = true /\ y = x) \/ nonneg y.
Proof.
  unfold Py.pow2. intro H.
  destruct (is_nan x) eqn:En; [left; now inversion H|]. right.
  destruct (is_infinity x) eqn:Ei; [inversion H; exact I|].
  destruct (is_zero x) eqn:Ez; [inversion H; exact I|].
  destruct (abs x =? 1)%float; [inversion H; exact I|].
  destruct (abs_finite_pos x En Ei Ez) as [Hf Hp].
  pose proof (c_pow_2_range (abs x) Hf Hp) as Hr.
  destruct (c_pow_2 (abs x)) as [ix e]. cbn [fst] in Hr.
  destruct (Py.adjust_erange1 ix e); inversion H; subst.
  now apply leb_nonneg.
Qed.

Lemma py_pow2_nonneg x y :
  number x -> Py.pow2 x = Ok y -> nonneg y.
Proof.
  intros Hx H. destruct (pow2_cases x y H) as [[En _]|Hy]; [|exact Hy].
  rewrite (FloatFacts.is_nan_number x Hx) in En. discriminate En.
Qed.

Lemma pow2_nonneg_or_nan x y : Py.pow2 x = Ok y -> nonneg_or_nan y.
Proof.
  intro H. destruct (pow2_cases x y H) as [[En ->]|Hy].
  - apply is_nan_spec in En. unfold nonneg_or_nan. now rewrite En.
  - now apply nonneg_is_nonneg_or_nan.
Qed.

(** [x ** 2] raises nothing but [OverflowError]. *)
Lemma pow2_raises x e : Py.pow2 x = Raise e -> e = OverflowError.
Proof.
  unfold Py.pow2. intro H.
  destruct (is_nan x) eqn:En; [discriminate H|].
  destruct (is_infinity x) eqn:Ei; [discriminate H|].
  destruct (is_zero x) eqn:Ez; [discriminate H|].
  destruct (abs x =? 1)%float; [discriminate H|].
  destruct (abs_finite_pos x En Ei Ez) as [Hf Hp].
  pose proof (c_pow_2_errno (abs x) Hf Hp) as He.
  destruct (c_pow_2 (abs x)) as [ix err]. cbn [snd] in He.
  destruct err; cbn [Py.adjust_erange1] in H; [| |congruence].
  - destruct (is_infinity ix); [now inversion H|discriminate H].
  - destruct (is_zero ix); [discriminate H|now inversion H].
Qed.

(** The value of [x ** 2] is [square x]. *)
Lemma pow2_square x y : Py.pow2 x = Ok y -> y = square x.
Proof. unfold square. now intros ->. Qed.

End Pow2.

(** ** Path lengths *)

Section PathLengths.
Context {libm : Libm}.

Lemma row_paths_quads qs toks :
  row_paths (flat_map quad_cells qs ++ map Str toks) = map quad_path qs.
Proof.
  induction qs as [|[[[p x] y] z] qs IH].
  - destruct toks; reflexivity.
  - cbn [flat_map quad_cells app map quad_path row_paths]. now rewrite IH.
Qed.

Lemma nondecreasing_tail x l : nondecreasing (x :: l) -> nondecreasing l.
Proof. destruct l; simpl; tauto. Qed.

Lemma nondecreasing_prefix a b : nondecreasing (a ++ b) -> nondecreasing a.
Proof.
  induction a as [|x [|y a] IH]; simpl; auto.
  intros [Hxy H]. split; [assumption|]. now apply IH.
Qed.

Lemma group_float_finite groups i x :
  forallb (fun g => match Py.float g with
                    | Some x => is_finite x
                    | None => true
                    end) groups = true ->
  group_float groups i = Ok x -> is_finite x = true.
Proof.
  intros Hall H. unfold group_float in H.
  destruct (Py.float (nth i groups EmptyString)) as [y|] eqn:E; [|discriminate H].
  inversion H; subst.
  destruct (nth_in_or_default i groups EmptyString) as [Hin|Hd].
  - rewrite forallb_forall in Hall. specialize (Hall _ Hin). now rewrite E in Hall.
  - rewrite Hd in E. discriminate E.
Qed.

Lemma py_sqrt_nonneg x y :
  nonneg x -> Py.sqrt x = Ok y -> nonneg y.
Proof.
  intros Hx H. unfold Py.sqrt in H. destruct (x <? 0)%float; [discriminate H|].
  inversion H. now apply FloatFacts.sqrt_nonneg.
Qed.

Lemma nonneg_zero : nonneg 0.
Proof. exact I. Qed.

(** One coordinate line, all of whose coordinates are finite: the path
    length does not go down. *)
Lemma coords_line_ok st groups st' :
  conv_ok st ->
  forallb (fun g => match Py.float g with
                    | Some x => is_finite x
                    | None => true
                    end) groups = true ->
  coords_line st groups = Ok st' ->
  conv_ok st' /\ (path_length st <=? path_length st')%float = true.
Proof.
  intros [Hp Hk] Hfin H. unfold coords_line, bind in H.
  assert (Hf : forall i x, group_float groups i = Ok x -> is_finite x = true)
    by (intros i x; now apply group_float_finite).
  repeat
    match type of H with
    | context [match ?m with _ => _ end] =>
        destruct m eqn:?; try discriminate H
    end.
  inversion H; subst; clear H; cbn [path_length k_old].
  repeat match goal with
         | E : group_float _ _ = Ok _ |- _ => apply Hf in E
         end.
  assert (Hko : is_finite f0 = true /\ is_finite f1 = true /\ is_finite f = true).
  { destruct (k_old st) as [[[o0 o1] o2]|];
      match goal with E : _ = Ok (f0, f1, f) |- _ => inversion E; subst end;
      tauto. }
  destruct Hko as (? & ? & ?).
  repeat match goal with
         | E : Py.pow2 (?a - ?b) = Ok _ |- _ =>
             apply py_pow2_nonneg in E;
             [|apply FloatFacts.sub_finite; assumption]
         end.
  match goal with
  | E : Py.sqrt _ = Ok ?r |- _ =>
      apply py_sqrt_nonneg in E;
      [|repeat (apply FloatFacts.add_nonneg; [|assumption]); exact nonneg_zero]
  end.
  unfold conv_ok. cbn [path_length k_old].
  split; [split; [now apply FloatFacts.add_nonneg|tauto]
         |now apply FloatFacts.add_nonneg].
Qed.

(** The first coordinate line of a dataset gives the path length 0. *)
Lemma coords_line_first groups st' :
  forallb (fun g => match Py.float g with
                    | Some x => is_finite x
                    | None => true
                    end) groups = true ->
  coords_line conv_init groups = Ok st' ->
  exists x y z, out_line st' = [Num 0; Num x; Num y; Num z].
Proof.
  intros Hfin H. unfold coords_line, bind in H. cbn [k_old conv_init] in H.
  assert (Hf : forall i x, group_float groups i = Ok x -> is_finite x = true)
    by (intros i x; now apply group_float_finite).
  destruct (group_float groups 0) as [x|] eqn:E0; [|discriminate H].
  destruct (group_float groups 1) as [y|] eqn:E1; [|discriminate H].
  destruct (group_float groups 2) as [z|] eqn:E2; [|discriminate H].
  rewrite !FloatFacts.sub_diag in H by eauto.
  cbn in H. inversion H. cbn. eauto.
Qed.

Lemma first_row_extends : forall lines st r rows e,
  convert_lines st lines = (r :: rows, e) ->
  exists tl, r = (out_line st ++ tl)%list.
Proof.
  induction lines as [|line lines IH]; intros st r rows e H.
  - discriminate H.
  - cbn [convert_lines] in H.
    destruct (Re.search re_coords line) as [groups|].
    + destruct (coords_line st groups) as [st'|] eqn:Hc; [|discriminate H].
      destruct (coords_line_out _ _ _ Hc) as (x & y & z & Ho & _).
      destruct (IH _ _ _ _ H) as (tl & ->). rewrite Ho, <- app_assoc. eauto.
    + unfold values_line in H. destruct (convert_lines _ lines).
      inversion H. eauto.
Qed.

Lemma emitted_prefix : forall lines st qs,
  out_line st = flat_map quad_cells qs ->
  exists t,
    (map quad_path qs ++ trace st lines)%list
    = (emitted_paths (fst (convert_lines st lines)) ++ t)%list.
Proof.
  induction lines as [|line lines IH]; intros st qs Hq.
  - simpl. eauto.
  - cbn [convert_lines trace].
    destruct (Re.search re_coords line) as [groups|].
    + destruct (coords_line st groups) as [st'|] eqn:Hc; [|simpl; eauto].
      destruct (coords_line_out _ _ _ Hc) as (x & y & z & Ho & _).
      destruct (IH st' (qs ++ [(path_length st', x, y, z)])%list) as (t & Ht).
      { rewrite flat_map_app, Ho, Hq. simpl. reflexivity. }
      exists t. rewrite <- Ht, map_app, <- app_assoc. reflexivity.
    + unfold values_line. cbn [snd].
      destruct (IH (mkConv (path_length st) [] (k st) (k_old st)) [] eq_refl)
        as (t & Ht).
      destruct (convert_lines _ lines) as [rows e]. cbn [fst] in *.
      exists t. unfold emitted_paths in *. cbn [flat_map].
      rewrite Hq, row_paths_quads, <- app_assoc, <- Ht. reflexivity.
Qed.

Lemma trace_nondecreasing : forall lines st,
  conv_ok st -> forallb finite_coords lines = true ->
  nondecreasing (path_length st :: trace st lines).
Proof.
  induction lines as [|line lines IH]; intros st Hok Hfin.
  - exact I.
  - cbn [forallb] in Hfin. apply andb_prop in Hfin. destruct Hfin as [Hl Hfin].
    unfold finite_coords in Hl. cbn [trace].
    destruct (Re.search re_coords line) as [groups|].
    + destruct (coords_line st groups) as [st'|] eqn:Hc; [|exact I].
      destruct (coords_line_ok _ _ _ Hok Hl Hc) as [Hok' Hle].
      split; [assumption|]. now apply IH.
    + apply (IH (snd (values_line st line))); [exact Hok|assumption].
Qed.

Lemma data_rows_convert d name :
  data_rows (convert_to_csv d name) = fst (convert_lines conv_init (ds_lines d))
  /\ snd (convert_to_csv d name) = snd (convert_lines conv_init (ds_lines d)).
Proof.
  unfold data_rows, convert_to_csv.
  destruct (convert_lines conv_init (ds_lines d)). split; reflexivity.
Qed.

End PathLengths.

(** ** Tokens are unique *)

Lemma starting_token tok rest :
  tok <> EmptyString -> str_all is_value_char tok = true ->
  starting is_value_char (tok ++ rest) = true.
Proof.
  destruct tok as [|a tok]; [congruence|]. simpl. intros _ H.
  now apply andb_prop in H.
Qed.

Lemma split_separator : forall sep1 sep2 t1 t2,
  str_all not_value_char sep1 = true -> str_all not_value_char sep2 = true ->
  starting is_value_char t1 = true -> starting is_value_char t2 = true ->
  (sep1 ++ t1)%string = (sep2 ++ t2)%string -> sep1 = sep2 /\ t1 = t2.
Proof.
  induction sep1 as [|a sep1 IH]; intros [|b sep2] t1 t2 H1 H2 Ht1 Ht2 E;
    simpl in E.
  - now split.
  - exfalso. subst t1. simpl in H2, Ht1.
    unfold not_value_char in H2 at 1. rewrite Ht1 in H2. discriminate H2.
  - exfalso. subst t2. simpl in H1, Ht2.
    unfold not_value_char in H1 at 1. rewrite Ht2 in H1. discriminate H1.
  - injection E as -> E. simpl in H1, H2.
    apply andb_prop in H1. apply andb_prop in H2.
    destruct (IH sep2 t1 t2) as [-> ->]; tauto.
Qed.

Lemma split_token : forall tok1 tok2 rest1 rest2,
  str_all is_value_char tok1 = true -> str_all is_value_char tok2 = true ->
  not_starting is_value_char rest1 = true ->
  not_starting is_value_char rest2 = true ->
  (tok1 ++ rest1)%string = (tok2 ++ rest2)%string ->
  tok1 = tok2 /\ rest1 = rest2.
Proof.
  induction tok1 as [|a tok1 IH]; intros [|b tok2] rest1 rest2 H1 H2 Hr1 Hr2 E;
    simpl in E.
  - now split.
  - exfalso. subst rest1. simpl in H2, Hr1.
    apply andb_prop in H2. destruct H2 as [Hb _]. rewrite Hb in Hr1.
    discriminate Hr1.
  - exfalso. subst rest2. simpl in H1, Hr2.
    apply andb_prop in H1. destruct H1 as [Ha _]. rewrite Ha in Hr2.
    discriminate Hr2.
  - injection E as -> E. simpl in H1, H2.
    apply andb_prop in H1. apply andb_prop in H2.
    destruct (IH tok2 rest1 rest2) as [-> ->]; tauto.
Qed.

Lemma no_token_inside sep tok rest :
  tok <> EmptyString -> str_all is_value_char tok = true ->
  str_all not_value_char (sep ++ tok ++ rest) = false.
Proof.
  intros Hne Hall. rewrite !str_all_app.
  destruct tok as [|a tok]; [congruence|]. simpl in Hall |- *.
  apply andb_prop in Hall. destruct Hall as [Ha _].
  unfold not_value_char at 2. rewrite Ha. simpl. apply andb_false_r.
Qed.

(** A line has one list of tokens only. *)
Lemma tokens_of_unique s toks1 :
  tokens_of s toks1 -> forall toks2, tokens_of s toks2 -> toks1 = toks2.
Proof.
  induction 1 as [s Hs|sep tok rest toks Hsep Hne Hall Hns Hrest IH];
    intros toks2 H2.
  - destruct H2 as [s' Hs'|sep' tok' rest' toks' Hsep' Hne' Hall' Hns' Hrest'];
      [reflexivity|].
    rewrite no_token_inside in Hs by assumption. discriminate Hs.
  - remember (sep ++ tok ++ rest)%string as s eqn:Es.
    destruct H2 as [s' Hs'|sep' tok' rest' toks' Hsep' Hne' Hall' Hns' Hrest'].
    + subst s'. rewrite no_token_inside in Hs' by assumption. discriminate Hs'.
    + destruct (split_separator sep' sep (tok' ++ rest') (tok ++ rest))
        as [-> E]; try assumption; try now apply starting_token.
      destruct (split_token tok' tok rest' rest) as [-> ->]; try assumption.
      f_equal. now apply IH.
Qed.

(** ** Scanning a file in two parts *)

Lemma scan_from_app file1 : forall st file2,
  scan_from st (file1 ++ file2)
  = (st' <- scan_from st file1 ;; scan_from st' file2).
Proof.
  induction file1 as [|line file1 IH]; intros st file2; cbn [app scan_from].
  - reflexivity.
  - destruct (scan_line st line) as [st'|e]; simpl; [apply IH|reflexivity].
Qed.

(** Inside a block the lines are taken as they come, whatever they
    are. *)
Lemma scan_block u s : forall block lines ahead,
  Z.of_nat (List.length block) <= ahead ->
  scan_from ([mkDataset u s lines], ahead) block
  = Ok ([mkDataset u s (lines ++ block)], ahead - Z.of_nat (List.length block)).
Proof.
  induction block as [|line block IH]; intros lines ahead Hlen.
  - cbn. now rewrite app_nil_r, Z.sub_0_r.
  - cbn [List.length] in Hlen. rewrite Nat2Z.inj_succ in Hlen.
    cbn [scan_from]. unfold scan_line.
    destruct (Z.eqb_spec ahead 0) as [->|Hne]; [lia|].
    cbn [append_line bind ds_unit ds_nkpt ds_lines].
    rewrite IH by lia. rewrite <- app_assoc. cbn [app List.length].
    rewrite Nat2Z.inj_succ. f_equal. f_equal. lia.
Qed.

(** A header met while seeking one, and the block under it. *)
Lemma scan_header_block datasets header groups n block :
  Re.search re_header header = Some groups ->
  Py.int (nth 1 groups EmptyString) = Some n ->
  Z.of_nat (List.length block) <= 2 * n ->
  scan_from (datasets, 0) (header :: block)
  = Ok (datasets ++ [mkDataset (nth 0 groups EmptyString)
                               (nth 1 groups EmptyString) block],
        2 * n - Z.of_nat (List.length block)).
Proof.
  intros Hs Hn Hlen.
  rewrite <- (app_nil_r datasets) at 1.
  rewrite scan_from_frame by now left.
  cbn [scan_from]. unfold scan_line. cbn [Z.eqb]. rewrite Hs, Hn.
  cbn [bind app]. rewrite scan_block by lia.
  unfold framed. cbn [bind fst snd app]. do 3 f_equal. lia.
Qed.

(** ** Lemmas for the further properties *)

(** ** The order of [str] *)

Lemma ascii_compare_refl a : Ascii.compare a a = Eq.
Proof. apply N.compare_refl. Qed.

Lemma ascii_compare_lt_trans a b c :
  Ascii.compare a b = Lt -> Ascii.compare b c = Lt -> Ascii.compare a c = Lt.
Proof.
  unfold Ascii.compare. rewrite !N.compare_lt_iff. apply N.lt_trans.
Qed.

Lemma str_compare_refl s : String.compare s s = Eq.
Proof.
  induction s as [|a s IH]; simpl; [reflexivity|].
  now rewrite ascii_compare_refl.
Qed.

Lemma str_compare_lt_trans : forall a b c,
  String.compare a b = Lt -> String.compare b c = Lt -> String.compare a c = Lt.
Proof.
  induction a as [|x a IH]; intros [|y b] [|z c] Hab Hbc; simpl in *;
    try discriminate; try reflexivity.
  destruct (Ascii.compare x y) eqn:Exy; try discriminate Hab;
    destruct (Ascii.compare y z) eqn:Eyz; try discriminate Hbc.
  - apply Ascii.compare_eq_iff in Exy, Eyz. subst.
    rewrite ascii_compare_refl. eapply IH; eassumption.
  - apply Ascii.compare_eq_iff in Exy. subst. now rewrite Eyz.
  - apply Ascii.compare_eq_iff in Eyz. subst. now rewrite Exy.
  - now rewrite (ascii_compare_lt_trans _ _ _ Exy Eyz).
Qed.

Lemma str_gt_irrefl a : Py.str_gt a a = false.
Proof. unfold Py.str_gt, String.ltb. now rewrite str_compare_refl. Qed.

(** [a > b] once [a > c] and [c >= b]. *)
Lemma str_gt_ge_trans a b c :
  Py.str_gt a c = true -> Py.str_gt b c = false -> Py.str_gt a b = true.
Proof.
  unfold Py.str_gt, String.ltb. intros Hac Hbc.
  destruct (String.compare c a) eqn:Eca; try discriminate Hac.
  rewrite (String.compare_antisym c b) in Hbc.
  destruct (String.compare b c) eqn:Ebc; simpl in Hbc.
  - apply String.compare_eq_iff in Ebc. subst. now rewrite Eca.
  - now rewrite (str_compare_lt_trans _ _ _ Ebc Eca).
  - discriminate Hbc.
Qed.

(** ** The loop of the branch ["b"] *)

Lemma biggest_fold datasets : forall m,
  first_greatest datasets (S m)
    (fold_left (biggest_step datasets) (seq 0 (S m)) 0%nat).
Proof.
  induction m as [|m IH].
  - cbn. unfold biggest_step. rewrite str_gt_irrefl.
    repeat split; [lia| |lia].
    intros j Hj. replace j with 0%nat by lia. apply str_gt_irrefl.
  - rewrite seq_S, fold_left_app. cbn [fold_left Nat.add].
    set (r := fold_left (biggest_step datasets) (seq 0 (S m)) 0%nat) in *.
    destruct IH as (Hr & Hmax & Hfirst). unfold biggest_step.
    destruct (Py.str_gt (nkpt_at datasets (S m)) (nkpt_at datasets r)) eqn:E.
    + repeat split; [lia| |].
      * intros j Hj. destruct (Nat.eq_dec j (S m)) as [->|Hne];
          [apply str_gt_irrefl|].
        destruct (Py.str_gt (nkpt_at datasets j) (nkpt_at datasets (S m))) eqn:Ej;
          [|reflexivity].
        assert (Hjr : Py.str_gt (nkpt_at datasets j) (nkpt_at datasets r) = true).
        { unfold Py.str_gt, String.ltb in *.
          destruct (String.compare (nkpt_at datasets r) (nkpt_at datasets (S m))) eqn:E1;
            try discriminate E.
          destruct (String.compare (nkpt_at datasets (S m)) (nkpt_at datasets j)) eqn:E2;
            try discriminate Ej.
          now rewrite (str_compare_lt_trans _ _ _ E1 E2). }
        rewrite Hmax in Hjr by lia. discriminate Hjr.
      * intros j Hj. apply str_gt_ge_trans with (c := nkpt_at datasets r);
          [assumption|]. apply Hmax. lia.
    + repeat split; [lia| |assumption].
      intros j Hj. destruct (Nat.eq_dec j (S m)) as [->|Hne]; [assumption|].
      apply Hmax. lia.
Qed.

(** ** Indexing *)

Lemma getitem_nat {A} (l : list A) (i : nat) (x : A) :
  nth_error l i = Some x -> Py.getitem l (Z.of_nat i) = Ok x.
Proof.
  intro H. assert (Hi : (i < List.length l)%nat)
    by (apply nth_error_Some; congruence).
  assert (E1 : (Z.of_nat i <? 0) = false) by (apply Z.ltb_ge; lia).
  assert (E2 : (Z.of_nat (List.length l) <=? Z.of_nat i) = false)
    by (apply Z.leb_gt; lia).
  unfold Py.getitem. cbv zeta. rewrite E1. cbv iota. rewrite E1, E2.
  cbn [orb]. now rewrite Nat2Z.id, H.
Qed.

Lemma getitem_last {A} (init : list A) (x : A) :
  Py.getitem (init ++ [x]) (-1) = Ok x.
Proof.
  unfold Py.getitem. cbv zeta.
  rewrite length_app, Nat2Z.inj_add. cbn [List.length Z.ltb Z.compare].
  change (Z.of_nat 1) with 1.
  replace (-1 + (Z.of_nat (List.length init) + 1))
    with (Z.of_nat (List.length init)) by lia.
  assert (E1 : (Z.of_nat (List.length init) <? 0) = false)
    by (apply Z.ltb_ge; lia).
  assert (E2 : (Z.of_nat (List.length init) + 1 <=? Z.of_nat (List.length init))
               = false) by (apply Z.leb_gt; lia).
  rewrite E1, E2. cbn [orb].
  rewrite Nat2Z.id, nth_error_app2, Nat.sub_diag by lia. reflexivity.
Qed.

(** What the invariant of the scanner says of each dataset. *)
Lemma scan_inv_bounds : forall datasets ahead,
  0 <= ahead -> scan_inv_from datasets ahead ->
  Forall (fun d => exists n,
            Py.int (ds_nkpt d) = Some n /\ 0 <= n
            /\ Z.of_nat (List.length (ds_lines d)) <= 2 * n) datasets
  /\ forall init d,
       datasets = (init ++ [d])%list ->
       Forall (fun d => exists n,
                 Py.int (ds_nkpt d) = Some n
                 /\ Z.of_nat (List.length (ds_lines d)) = 2 * n) init.
Proof.
  induction datasets as [|d [|d' rest] IH]; intros ahead Hpos Hinv.
  - split; [constructor|]. intros [|? ?] ? E; discriminate E.
  - destruct Hinv as (n & Hn & Hlen). split.
    + repeat constructor. exists n. repeat split; [assumption|lia|lia].
    + intros [|x [|y init]] z E; try discriminate E. constructor.
  - destruct Hinv as [(n & Hn & Hlen) Hrest].
    destruct (IH ahead Hpos Hrest) as [Hb Hc]. split.
    + constructor; [|assumption]. exists n. repeat split; [assumption|lia|lia].
    + intros [|x init] z E; [discriminate E|].
      injection E as <- E. constructor.
      * exists n. split; [assumption|lia].
      * eapply Hc. exact E.
Qed.

Lemma lines_used_app a b :
  lines_used (a ++ b) = (lines_used a + lines_used b)%nat.
Proof. induction a as [|d a IH]; simpl; [reflexivity|]. rewrite IH. lia. Qed.

Lemma append_line_used line seen : forall datasets datasets',
  append_line datasets line = Ok datasets' ->
  Forall (fun d => incl (ds_lines d) seen) datasets ->
  lines_used datasets' = S (lines_used datasets)
  /\ Forall (fun d => incl (ds_lines d) (seen ++ [line])) datasets'.
Proof.
  induction datasets as [|d [|d' rest] IH]; intros datasets' H Hin.
  - discriminate H.
  - inversion H; subst. split.
    + simpl. rewrite length_app. simpl. lia.
    + repeat constructor. cbn [ds_lines]. inversion Hin; subst.
      apply incl_app; [now apply incl_appl|apply incl_appr, incl_refl].
  - change (append_line (d :: d' :: rest) line)
      with (rest' <- append_line (d' :: rest) line ;; Ok (d :: rest')) in H.
    destruct (append_line (d' :: rest) line) as [r|] eqn:E; [|discriminate H].
    inversion H; subst. inversion Hin; subst.
    destruct (IH r eq_refl) as [Hu Hi]; [assumption|]. split.
    + change (lines_used (d :: r))
        with (S (List.length (ds_lines d)) + lines_used r)%nat.
      rewrite Hu. simpl. lia.
    + constructor; [now apply incl_appl|assumption].
Qed.

Lemma scan_from_used : forall file datasets ahead datasets' ahead' seen,
  scan_from (datasets, ahead) file = Ok (datasets', ahead') ->
  Forall (fun d => incl (ds_lines d) seen) datasets ->
  (lines_used datasets' <= lines_used datasets + List.length file)%nat
  /\ Forall (fun d => incl (ds_lines d) (seen ++ file)) datasets'.
Proof.
  induction file as [|line file IH]; intros ds a ds' a' seen H Hin.
  - inversion H; subst. rewrite app_nil_r. split; [simpl; lia|assumption].
  - cbn [scan_from] in H.
    destruct (scan_line (ds, a) line) as [[ds1 a1]|] eqn:Hl; [|discriminate H].
    cbn [bind] in H.
    assert (Hstep : (lines_used ds1 <= S (lines_used ds))%nat
                    /\ Forall (fun d => incl (ds_lines d) (seen ++ [line])) ds1).
    { unfold scan_line in Hl. destruct (a =? 0).
      - destruct (Re.search re_header line) as [groups|].
        + destruct (Py.int _); [|discriminate Hl]. inversion Hl; subst.
          rewrite lines_used_app. split; [simpl; lia|].
          apply Forall_app. split.
          * eapply Forall_impl; [|exact Hin]. intros d Hd. now apply incl_appl.
          * repeat constructor. intros x [].
        + inversion Hl; subst. split; [lia|].
          eapply Forall_impl; [|exact Hin]. intros d Hd. now apply incl_appl.
      - destruct (append_line ds line) as [r|] eqn:E; [|discriminate Hl].
        inversion Hl; subst.
        destruct (append_line_used line seen ds ds1 E Hin) as [Hu Hi].
        split; [lia|assumption]. }
    destruct Hstep as [Hu Hi].
    destruct (IH ds1 a1 ds' a' (seen ++ [line])%list H Hi) as [Hu' Hi'].
    rewrite <- app_assoc in Hi'. cbn [List.length]. split; [lia|assumption].
Qed.

(** ** Text that a pattern matches *)

Lemma star_run {A} c (k : string -> string -> option A) : forall run acc rest r,
  str_all c run = true -> not_starting c rest = true ->
  k (string_of_list_ascii (rev acc) ++ run)%string rest = Some r ->
  Re.star c k acc (run ++ rest) = Some r.
Proof.
  induction run as [|a run IH]; intros acc rest r Hrun Hrest Hk.
  - rewrite append_nil_r in Hk. cbn [String.append].
    destruct rest as [|b rest]; cbn [Re.star]; [assumption|].
    cbn [not_starting] in Hrest. apply negb_true_iff in Hrest.
    now rewrite Hrest.
  - cbn [str_all] in Hrun. apply andb_prop in Hrun. destruct Hrun as [Ha Hrun].
    cbn [String.append Re.star]. rewrite Ha.
    rewrite (IH (a :: acc) rest r); [reflexivity|assumption|assumption|].
    cbn [rev]. rewrite of_list_app, append_assoc. exact Hk.
Qed.

Lemma match_node_run {A} n : forall text rest (k : string -> string -> option A) r,
  node_ok n text -> node_stop n rest -> k text rest = Some r ->
  Re.match_node n (text ++ rest) k = Some r.
Proof.
  induction n as [l|c|c|n IH]; intros text rest k r Hok Hstop Hk;
    cbn [Re.match_node node_ok node_stop] in *.
  - subst text. now rewrite ReFacts.strip_prefix_app.
  - now apply star_run.
  - destruct Hok as [Hne Hall]. destruct text as [|a text]; [congruence|].
    cbn [str_all] in Hall. apply andb_prop in Hall. destruct Hall as [Ha Hall].
    cbn [String.append]. rewrite Ha. now apply star_run.
  - now apply IH.
Qed.

Lemma match_here_cons n r text rest gs rest' :
  node_ok n text -> node_stop n rest ->
  Re.match_here r rest = Some (gs, rest') ->
  Re.match_here (n :: r) (text ++ rest) = Some ((Re.captures n text ++ gs)%list, rest').
Proof.
  intros Hok Hstop Hr. cbn [Re.match_here].
  apply match_node_run; [assumption|assumption|]. now rewrite Hr.
Qed.

Lemma search_skip lit r : forall pre s,
  no_start lit pre s = true ->
  Re.search (Re.Lit lit :: r) (pre ++ s) = Re.search (Re.Lit lit :: r) s.
Proof.
  induction pre as [|a pre IH]; intros s H; [reflexivity|].
  cbn [no_start] in H.
  destruct (Re.strip_prefix lit (String a pre ++ s)) eqn:E; [discriminate H|].
  cbn [String.append Re.search Re.match_here Re.match_node].
  cbn [String.append] in E. rewrite E. now apply IH.
Qed.

Lemma search_here r s gs rest :
  Re.match_here r s = Some (gs, rest) -> Re.search r s = Some gs.
Proof. intro H. destruct s; cbn [Re.search]; now rewrite H. Qed.

(** ** Characters *)

Lemma blank_is_space a : is_blank a = true -> a = " "%char.
Proof. apply Ascii.eqb_eq. Qed.

Lemma not_starting_run (c d : ascii -> bool) run rest :
  run <> EmptyString -> str_all c run = true ->
  (forall a, c a = true -> d a = false) ->
  not_starting d (run ++ rest) = true.
Proof.
  intros Hne Hall Hcd. destruct run as [|a run]; [congruence|].
  cbn [str_all] in Hall. apply andb_prop in Hall. destruct Hall as [Ha _].
  cbn. now rewrite (Hcd a Ha).
Qed.

Lemma not_starting_blanks (d : ascii -> bool) b rest :
  str_all is_blank b = true -> d " "%char = false ->
  not_starting d rest = true -> not_starting d (b ++ rest) = true.
Proof.
  intros Hb Hd Hrest. destruct b as [|a b]; [assumption|].
  cbn [str_all] in Hb. apply andb_prop in Hb. destruct Hb as [Ha _].
  apply blank_is_space in Ha. subst a. cbn. now rewrite Hd.
Qed.

Lemma word_not_blank a : is_word a = true -> is_blank a = false.
Proof.
  intro H. destruct (is_blank a) eqn:E; [|reflexivity].
  apply blank_is_space in E. subst a. discriminate H.
Qed.

Lemma num_not_blank a : is_num a = true -> is_blank a = false.
Proof.
  intro H. destruct (is_blank a) eqn:E; [|reflexivity].
  apply blank_is_space in E. subst a. discriminate H.
Qed.

Lemma value_char_not_blank a : is_value_char a = true -> is_blank a = false.
Proof.
  intro H. destruct (is_blank a) eqn:E; [|reflexivity].
  apply blank_is_space in E. subst a. discriminate H.
Qed.

Local Open Scope string_scope.
Local Open Scope Z_scope.

(** A header with any number of blanks at the four places where the
    pattern allows them, at the front of a line. *)
Lemma header_here b1 u b2 b3 n b4 rest :
  str_all is_blank b1 = true -> str_all is_blank b2 = true ->
  str_all is_blank b3 = true -> str_all is_blank b4 = true ->
  u <> EmptyString -> str_all is_word u = true ->
  n <> EmptyString -> str_all is_num n = true ->
  Re.match_here re_header
    ("Eigenvalues (" ++ b1 ++ u ++ b2 ++ ") for nkpt=" ++ b3 ++ n ++ b4
     ++ "k points:" ++ rest)
  = Some ([u; n], rest).
Proof.
  intros H1 H2 H3 H4 Hu Hwu Hn Hdn. unfold re_header.
  apply (match_here_cons (Re.Lit "Eigenvalues (") _ _ _ [u; n]); [reflexivity|exact I|].
  apply (match_here_cons (Re.Star is_blank) _ _ _ [u; n]); [assumption| |].
  { cbn [node_stop]. apply not_starting_run with (c := is_word); try assumption.
    apply word_not_blank. }
  apply (match_here_cons (Re.Group (Re.Plus is_word)) _ _ _ [n]); [now split| |].
  { cbn [node_stop]. apply not_starting_blanks; [assumption|reflexivity|reflexivity]. }
  apply (match_here_cons (Re.Star is_blank) _ _ _ [n]); [assumption|reflexivity|].
  apply (match_here_cons (Re.Lit ") for nkpt=") _ _ _ [n]); [reflexivity|exact I|].
  apply (match_here_cons (Re.Star is_blank) _ _ _ [n]); [assumption| |].
  { cbn [node_stop]. apply not_starting_run with (c := is_num); try assumption.
    apply num_not_blank. }
  apply (match_here_cons (Re.Group (Re.Plus is_num)) _ _ _ []); [now split| |].
  { cbn [node_stop]. apply not_starting_blanks; [assumption|reflexivity|reflexivity]. }
  apply (match_here_cons (Re.Star is_blank) _ _ _ []); [assumption|reflexivity|].
  apply (match_here_cons (Re.Lit "k points:") _ _ _ []); [reflexivity|exact I|].
  reflexivity.
Qed.

(** Three coordinates after [kpt=], each after one blank or more, at
    the front of a line. *)
Lemma coords_here b1 x b2 y b3 z rest :
  b1 <> EmptyString -> str_all is_blank b1 = true ->
  b2 <> EmptyString -> str_all is_blank b2 = true ->
  b3 <> EmptyString -> str_all is_blank b3 = true ->
  x <> EmptyString -> str_all is_value_char x = true ->
  y <> EmptyString -> str_all is_value_char y = true ->
  z <> EmptyString -> str_all is_value_char z = true ->
  not_starting is_value_char rest = true ->
  Re.match_here re_coords ("kpt=" ++ b1 ++ x ++ b2 ++ y ++ b3 ++ z ++ rest)
  = Some ([x; y; z], rest).
Proof.
  intros N1 H1 N2 H2 N3 H3 Nx Hx Ny Hy Nz Hz Hrest. unfold re_coords.
  assert (Hvb : forall run more, run <> EmptyString -> str_all is_value_char run = true ->
                  not_starting is_blank (run ++ more) = true).
  { intros run more Hne Hall.
    apply not_starting_run with (c := is_value_char); try assumption.
    apply value_char_not_blank. }
  assert (Hbv : forall run more, run <> EmptyString -> str_all is_blank run = true ->
                  not_starting is_value_char (run ++ more) = true).
  { intros run more Hne Hall.
    apply not_starting_run with (c := is_blank); try assumption.
    intros a Ha. apply blank_is_space in Ha. now subst a. }
  apply (match_here_cons (Re.Lit "kpt=") _ _ _ [x; y; z]); [reflexivity|exact I|].
  apply (match_here_cons (Re.Plus is_blank) _ _ _ [x; y; z]);
    [now split|now apply Hvb|].
  apply (match_here_cons (Re.Group (Re.Plus is_value_char)) _ _ _ [y; z]);
    [now split|now apply Hbv|].
  apply (match_here_cons (Re.Plus is_blank) _ _ _ [y; z]);
    [now split|now apply Hvb|].
  apply (match_here_cons (Re.Group (Re.Plus is_value_char)) _ _ _ [z]);
    [now split|now apply Hbv|].
  apply (match_here_cons (Re.Plus is_blank) _ _ _ [z]);
    [now split|now apply Hvb|].
  apply (match_here_cons (Re.Group (Re.Plus is_value_char)) _ _ _ []);
    [now split|assumption|].
  reflexivity.
Qed.

Local Close Scope string_scope.

Local Open Scope string_scope.
Local Open Scope Z_scope.

Lemma header_line_groups u n :
  u <> EmptyString -> str_all is_word u = true ->
  n <> EmptyString -> str_all is_num n = true ->
  Re.search re_header (header_line u n) = Some [u; n].
Proof.
  intros Hu Hwu Hn Hdn. apply search_here with (rest := EmptyString).
  change (header_line u n)
    with ("Eigenvalues (" ++ " " ++ u ++ " " ++ ") for nkpt=" ++ " " ++ n ++ " "
          ++ "k points:" ++ EmptyString).
  now apply header_here.
Qed.

Lemma scan_render : forall datasets pre,
  forallb well_formed datasets = true ->
  scan_from (pre, 0) (flat_map render datasets) = Ok ((pre ++ datasets)%list, 0).
Proof.
  induction datasets as [|d datasets IH]; intros pre Hwf.
  - cbn. now rewrite app_nil_r.
  - cbn [forallb] in Hwf. apply andb_prop in Hwf. destruct Hwf as [Hd Hwf].
    unfold well_formed in Hd. destruct d as [u n lines]. cbn [ds_unit ds_nkpt ds_lines] in Hd.
    repeat (apply andb_prop in Hd; destruct Hd as [Hd ?]).
    destruct (Py.int n) as [z|] eqn:Hz; [|discriminate].
    match goal with H : (_ =? 2 * z) = true |- _ => apply Z.eqb_eq in H; rename H into Hlen end.
    assert (Hu : u <> EmptyString).
    { intros ->. discriminate Hd. }
    assert (Hn : n <> EmptyString).
    { intros ->. match goal with H : negb (EmptyString =? EmptyString)%string = true |- _ => discriminate H end. }
    cbn [flat_map render ds_unit ds_nkpt ds_lines].
    change (scan_from (pre, 0) ((header_line u n :: lines) ++ flat_map render datasets)
            = Ok ((pre ++ mkDataset u n lines :: datasets)%list, 0)).
    rewrite scan_from_app.
    rewrite (scan_header_block pre (header_line u n) [u; n] z lines);
      [|now apply header_line_groups|exact Hz|lia].
    cbn [bind nth]. replace (2 * z - Z.of_nat (List.length lines)) with 0 by lia.
    rewrite IH by assumption. now rewrite <- app_assoc.
Qed.

Local Close Scope string_scope.

(** ** What a coordinate line can raise *)

Section ConverterRaises.
Context {libm : Libm}.

(** Case analysis on the innermost [match] of a hypothesis, as long as
    there is one. *)
Ltac split_matches H :=
  repeat
    match type of H with
    | context [match ?m with _ => _ end] =>
        lazymatch m with
        | context [match _ with _ => _ end] => fail
        | _ => destruct m eqn:?; try discriminate H
        end
    end.

Lemma group_float_raises groups i e :
  group_float groups i = Raise e ->
  e = ValueError /\ Py.float (nth i groups EmptyString) = None.
Proof.
  unfold group_float. destruct (Py.float _); intro H; inversion H. now split.
Qed.

Lemma coords_line_raises st groups e :
  coords_line st groups = Raise e ->
  e = OverflowError
  \/ (e = ValueError
      /\ exists i, (i < 3)%nat /\ Py.float (nth i groups EmptyString) = None).
Proof.
  unfold coords_line, bind. intro H.
  destruct (k_old st) as [[[o0 o1] o2]|]; split_matches H;
    inversion H; subst; clear H;
    repeat match goal with
           | E : Py.pow2 _ = Ok _ |- _ => apply pow2_nonneg_or_nan in E
           end;
    lazymatch goal with
    | E : group_float _ ?i = Raise _ |- _ =>
        apply group_float_raises in E; destruct E as [-> E];
        right; split; [reflexivity|exists i; split; [lia|exact E]]
    | E : Py.pow2 _ = Raise _ |- _ =>
        apply pow2_raises in E; now left
    | E : Py.sqrt _ = Raise _ |- _ =>
        rewrite sqrt_never_raises in E;
        [discriminate E
        |repeat (apply add_nonneg_or_nan; [|assumption]);
         apply nonneg_is_nonneg_or_nan; exact I]
    end.
Qed.

Lemma convert_lines_raises : forall lines st e,
  snd (convert_lines st lines) = Some e ->
  e = OverflowError
  \/ (e = ValueError
      /\ exists line groups i,
           In line lines /\ Re.search re_coords line = Some groups
           /\ (i < 3)%nat /\ Py.float (nth i groups EmptyString) = None).
Proof.
  induction lines as [|line lines IH]; intros st e H.
  - discriminate H.
  - cbn [convert_lines] in H.
    destruct (Re.search re_coords line) as [groups|] eqn:Hs.
    + destruct (coords_line st groups) as [st'|e'] eqn:Hc.
      * destruct (IH st' e H) as [?|(-> & l & g & i & Hin & ?)]; [now left|].
        right. split; [reflexivity|]. exists l, g, i. split; [now right|assumption].
      * cbn [snd] in H. inversion H; subst.
        destruct (coords_line_raises _ _ _ Hc) as [?|(-> & i & Hi & Hf)];
          [now left|].
        right. split; [reflexivity|]. exists line, groups, i.
        repeat split; try assumption. now left.
    + unfold values_line in H.
      destruct (convert_lines _ lines) as [rows e'] eqn:Hr. cbn [snd] in H.
      subst e'.
      destruct (IH (mkConv (path_length st) [] (k st) (k_old st)) e)
        as [?|(-> & l & g & i & Hin & ?)];
        [now rewrite Hr|now left|].
      right. split; [reflexivity|]. exists l, g, i. split; [now right|assumption].
Qed.

(** ** The shape of the rows *)

Lemma convert_lines_shape : forall lines st qs,
  out_line st = flat_map quad_cells qs ->
  exists done rest,
    lines = (done ++ rest)%list
    /\ Forall2 row_for (fst (convert_lines st lines)) (values_lines done)
    /\ match snd (convert_lines st lines) with
       | None => rest = []
       | Some _ => exists c rest', rest = c :: rest' /\ is_coords c = true
       end.
Proof.
  induction lines as [|line lines IH]; intros st qs Hq.
  - exists [], []. repeat split. constructor.
  - cbn [convert_lines].
    destruct (Re.search re_coords line) as [groups|] eqn:Hs.
    + assert (Hc : is_coords line = true) by (unfold is_coords; now rewrite Hs).
      destruct (coords_line st groups) as [st'|e] eqn:Hl.
      * destruct (coords_line_out _ _ _ Hl) as (x & y & z & Ho & _).
        destruct (IH st' (qs ++ [(path_length st', x, y, z)])%list)
          as (done & rest & -> & Hrows & Hrest).
        { rewrite flat_map_app, Ho, Hq. simpl. reflexivity. }
        exists (line :: done), rest. unfold values_lines. cbn [filter app].
        rewrite Hc. repeat split; assumption.
      * exists [], (line :: lines). repeat split; [constructor|]. cbn [snd]. eauto.
    + assert (Hc : is_coords line = false) by (unfold is_coords; now rewrite Hs).
      unfold values_line.
      destruct (IH (mkConv (path_length st) [] (k st) (k_old st)) [] eq_refl)
        as (done & rest & -> & Hrows & Hrest).
      destruct (convert_lines _ (done ++ rest)) as [rows e].
      exists (line :: done), rest. unfold values_lines in *.
      cbn [filter app fst snd] in *. rewrite Hc. cbn [negb].
      repeat split; [|assumption].
      constructor; [|assumption]. exists qs. now rewrite Hq.
Qed.




(** ** Path lengths are not negative *)

Lemma trace_nonneg : forall lines st,
  conv_ok st -> forallb finite_coords lines = true ->
  Forall nonneg (trace st lines).
Proof.
  induction lines as [|line lines IH]; intros st Hok Hfin.
  - constructor.
  - cbn [forallb] in Hfin. apply andb_prop in Hfin. destruct Hfin as [Hl Hfin].
    unfold finite_coords in Hl. cbn [trace].
    destruct (Re.search re_coords line) as [groups|].
    + destruct (coords_line st groups) as [st'|] eqn:Hc; [|constructor].
      destruct (coords_line_ok _ _ _ Hok Hl Hc) as [Hok' _].
      constructor; [apply Hok'|now apply IH].
    + apply (IH (snd (values_line st line))); [exact Hok|assumption].
Qed.

(** ** The rows of a block of pairs *)

(** A coordinate line that does not raise moves the path length on by
    the length of the step from the previous k-point, which is the
    k-point itself on the first line. *)
Lemma coords_line_step st line groups kp st' :
  Re.search re_coords line = Some groups ->
  coords_of line = Some kp ->
  coords_line st groups = Ok st' ->
  let prev := match k_old st with Some ko => ko | None => kp end in
  let '(x, y, z) := kp in
  path_length st' = (path_length st + step_length prev kp)%float
  /\ out_line st'
     = (out_line st ++ [Num (path_length st'); Num x; Num y; Num z])%list
  /\ k_old st' = Some kp.
Proof.
  intros Hs Hk H. unfold coords_of in Hk. rewrite Hs in Hk.
  unfold coords_line, bind, group_float in H.
  destruct (Py.float (nth 0 groups EmptyString)) as [x|]; [|discriminate Hk].
  destruct (Py.float (nth 1 groups EmptyString)) as [y|]; [|discriminate Hk].
  destruct (Py.float (nth 2 groups EmptyString)) as [z|]; [|discriminate Hk].
  inversion Hk; subst kp. clear Hk.
  destruct (k_old st) as [[[o0 o1] o2]|]; split_matches H;
    inversion H; subst; clear H;
    repeat match goal with
           | E : Py.pow2 _ = Ok _ |- _ => apply pow2_square in E; subst
           | E : Py.sqrt _ = Ok _ |- _ =>
               unfold Py.sqrt in E; split_matches E; inversion E; subst; clear E
           end;
    cbn [path_length out_line k_old step_length]; repeat split.
Qed.

Lemma convert_pairs_rows : forall pairs ks st rows,
  map (fun p => coords_of (fst p)) pairs = map Some ks ->
  forallb (fun p => negb (is_coords (snd p))) pairs = true ->
  out_line st = [] ->
  convert_lines st (flatten_pairs pairs) = (rows, None) ->
  rows = match ks with
         | [] => []
         | k1 :: _ =>
             rows_from (path_length st)
                       (match k_old st with Some ko => ko | None => k1 end)
                       ks (map snd pairs)
         end.
Proof.
  induction pairs as [|[c v] pairs IH]; intros ks st rows Hks Hvs Hout H.
  - destruct ks; [|discriminate Hks]. now inversion H.
  - destruct ks as [|kp ks]; [discriminate Hks|].
    cbn [map fst] in Hks. injection Hks as Hc Hks.
    cbn [forallb snd] in Hvs. apply andb_prop in Hvs. destruct Hvs as [Hv Hvs].
    apply negb_true_iff in Hv. unfold is_coords in Hv.
    cbn [flatten_pairs convert_lines] in H.
    destruct (Re.search re_coords c) as [groups|] eqn:Hs;
      [|unfold coords_of in Hc; rewrite Hs in Hc; discriminate Hc].
    destruct (coords_line st groups) as [st'|] eqn:Hl; [|discriminate H].
    pose proof (coords_line_step st c groups kp st' Hs Hc Hl) as Hstep.
    cbv zeta in Hstep. destruct kp as [[x y] z].
    destruct Hstep as (Hp & Ho & Hk).
    destruct (Re.search re_coords v); [discriminate Hv|].
    unfold values_line in H.
    destruct (convert_lines _ (flatten_pairs pairs)) as [rows' e] eqn:Hrest.
    inversion H; subst rows e. clear H.
    apply (IH ks) in Hrest; [|assumption|assumption|reflexivity].
    cbn [path_length k_old] in Hrest. rewrite Hk in Hrest.
    cbn [map snd rows_from]. rewrite Ho, Hout, <- Hp. cbn [app].
    f_equal. rewrite Hrest. now destruct ks.
Qed.

End ConverterRaises.

(** ** A match, taken apart *)

Lemma search_inv_at r : forall s gs,
  Re.search r s = Some gs ->
  exists pre s' rest,
    s = (pre ++ s')%string /\ Re.match_here r s' = Some (gs, rest).
Proof.
  induction s as [|a s IH]; cbn [Re.search]; intros gs H.
  - destruct (Re.match_here r EmptyString) as [[gs' rest]|] eqn:E;
      [|discriminate H].
    inversion H; subst. exists EmptyString, EmptyString, rest. now split.
  - destruct (Re.match_here r (String a s)) as [[gs' rest]|] eqn:E.
    + inversion H; subst. exists EmptyString, (String a s), rest. now split.
    + destruct (IH gs H) as (pre & s' & rest & -> & Hm).
      exists (String a pre), s', rest. now split.
Qed.

Lemma match_here_inv_cons n r s gs rest :
  Re.match_here (n :: r) s = Some (gs, rest) ->
  exists text mid gs',
    s = (text ++ mid)%string /\ node_ok n text
    /\ Re.match_here r mid = Some (gs', rest)
    /\ gs = (Re.captures n text ++ gs')%list.
Proof.
  cbn [Re.match_here]. intro H. apply ReFacts.match_node_inv in H.
  destruct H as (text & mid & -> & Hok & H).
  destruct (Re.match_here r mid) as [[gs' rest']|] eqn:E; [|discriminate H].
  inversion H; subst. exists text, mid, gs'. now repeat split.
Qed.

(** One node taken off the pattern of a match. *)
Ltac take_node H :=
  apply match_here_inv_cons in H;
  let t := fresh "t" in
  let Hok := fresh "Hok" in
  destruct H as (t & ? & ? & -> & Hok & H & ->);
  cbn [node_ok Re.captures app] in Hok |- *.

Local Open Scope string_scope.
Local Open Scope Z_scope.

Lemma header_match_here s groups rest :
  Re.match_here re_header s = Some (groups, rest) ->
  exists b1 u b2 b3 n b4,
    s = "Eigenvalues (" ++ b1 ++ u ++ b2 ++ ") for nkpt=" ++ b3 ++ n ++ b4
        ++ "k points:" ++ rest
    /\ groups = [u; n]
    /\ str_all is_blank b1 = true /\ str_all is_blank b2 = true
    /\ str_all is_blank b3 = true /\ str_all is_blank b4 = true
    /\ (u <> EmptyString /\ str_all is_word u = true)
    /\ (n <> EmptyString /\ str_all is_num n = true).
Proof.
  intro H. unfold re_header in H. do 9 take_node H.
  cbn [Re.match_here] in H. inversion H; subst. subst.
  do 6 eexists. split; [reflexivity|]. cbn [Re.captures app].
  repeat split; try assumption; try tauto.
Qed.

Lemma coords_match_here s groups rest :
  Re.match_here re_coords s = Some (groups, rest) ->
  exists b1 x b2 y b3 z,
    s = "kpt=" ++ b1 ++ x ++ b2 ++ y ++ b3 ++ z ++ rest
    /\ groups = [x; y; z]
    /\ (b1 <> EmptyString /\ str_all is_blank b1 = true)
    /\ (b2 <> EmptyString /\ str_all is_blank b2 = true)
    /\ (b3 <> EmptyString /\ str_all is_blank b3 = true)
    /\ (x <> EmptyString /\ str_all is_value_char x = true)
    /\ (y <> EmptyString /\ str_all is_value_char y = true)
    /\ (z <> EmptyString /\ str_all is_value_char z = true).
Proof.
  intro H. unfold re_coords in H. do 7 take_node H.
  cbn [Re.match_here] in H. inversion H; subst. subst.
  do 6 eexists. split; [reflexivity|]. cbn [Re.captures app].
  repeat split; try assumption; try tauto.
Qed.

(** The count that the header pattern found is part of the line. *)
Lemma header_group_length line groups :
  Re.search re_header line = Some groups ->
  (String.length (nth 1 groups EmptyString) <= String.length line)%nat.
Proof.
  intro H. apply search_inv_at in H. destruct H as (pre & s & rest & -> & H).
  apply header_match_here in H.
  destruct H as (b1 & u & b2 & b3 & n & b4 & -> & -> & _).
  cbn [nth]. rewrite !append_length. lia.
Qed.

(** A file none of whose lines is longer than 4300 characters is
    scanned to its end. *)
Lemma scan_from_short file st :
  scan_inv st ->
  Forall (fun line => Z.of_nat (String.length line) <= 4300) file ->
  exists st', scan_from st file = Ok st'.
Proof.
  intros Hinv Hshort. destruct (scan_from st file) as [st'|e] eqn:H; [eauto|].
  destruct (scan_from_raises file st e Hinv H) as (_ & line & groups & Hin & Hs & Hlong).
  rewrite Forall_forall in Hshort. specialize (Hshort line Hin).
  pose proof (header_group_length line groups Hs). lia.
Qed.

Local Close Scope string_scope.

(** * The claims of the specification *)

Local Open Scope string_scope.
Local Open Scope Z_scope.

(** C1: what the branch ["b"] does on two logs.  With two datasets of
    one k-point each it keeps the first one, where the help text and the
    claim want the last one.  With a dataset of 2 k-points followed by one
    of 10 it keeps the one of 2: the counts are compared as text, and
    ["10"] is below ["2"]. *)
Theorem biggest_keeps_first_and_compares_text :
  (exists a b,
      find_datasets log_tie = Ok [a; b]
      /\ ds_nkpt a = "1" /\ ds_nkpt b = "1"
      /\ select (ArgStr "b") [a; b] = Ok 0)
  /\ (exists a b,
         find_datasets log_2_then_10 = Ok [a; b]
         /\ Py.int (ds_nkpt a) = Some 2 /\ Py.int (ds_nkpt b) = Some 10
         /\ select (ArgStr "b") [a; b] = Ok 0).
Proof.
  split; do 2 eexists; (split; [vm_compute; reflexivity|]);
    repeat split; vm_compute; reflexivity.
Qed.

(** C2: when the scanner ends with its countdown at zero, that is when
    no block was cut short by the end of the file, every dataset it
    returns holds twice as many lines as the k-points its header
    declares. *)
Theorem scan_complete_blocks file datasets :
  scan file = Ok (datasets, 0) ->
  find_datasets file = Ok datasets
  /\ Forall (fun d => exists n,
               Py.int (ds_nkpt d) = Some n
               /\ Z.of_nat (List.length (ds_lines d)) = 2 * n) datasets.
Proof.
  intro H. split; [unfold find_datasets; now rewrite H|].
  destruct (scan_from_inv file _ _ scan_inv_init H) as [_ Hinv].
  cbn [fst snd] in Hinv. apply scan_inv_all_complete in Hinv.
  eapply Forall_impl; [|exact Hinv].
  intros d (n & Hn & Hlen). exists n. split; [assumption|lia].
Qed.

(** The log of two k-points ends with the countdown at zero. *)
Lemma scan_complete_blocks_witness :
  scan log_two_points = Ok ([two_points], 0)
  /\ Forall (fun d => exists n,
               Py.int (ds_nkpt d) = Some n
               /\ Z.of_nat (List.length (ds_lines d)) = 2 * n) [two_points].
Proof.
  split; [reflexivity|].
  apply (scan_complete_blocks log_two_points [two_points]). reflexivity.
Defined.

(** C3, as stated, fails: a coordinate too large for binary64 is read
    as an infinity, the first step is then [inf - inf], and the path
    length of the first row is NaN and not 0; the second one is NaN too,
    and NaN is not [<=] NaN. *)
Lemma path_length_nan_on_overflow :
  data_rows (main (libm := rounded) (ArgStr "b") "abinit.out" log_overflow)
  = [ [Num nan; Num infinity; Num 0; Num 0; Str "1.0"];
      [Num nan; Num infinity; Num 0.5; Num 0; Str "2.0"] ]
  /\ is_coords ("kpt= " ++ huge ++ " 0.0 0.0") = true
  /\ (nan =? 0)%float = false
  /\ (nan <=? nan)%float = false.
Proof. repeat split; vm_compute; reflexivity. Qed.

(** C3, amended: when the coordinates of the dataset are finite
    numbers, the path lengths written are in non-decreasing order, and
    when the dataset starts with a coordinate line the first row written
    starts with the path length 0. *)
Theorem path_lengths_nondecreasing {libm : Libm} d name :
  forallb finite_coords (ds_lines d) = true ->
  nondecreasing (emitted_paths (data_rows (convert_to_csv d name)))
  /\ (forall line rest r rows,
         ds_lines d = line :: rest ->
         is_coords line = true ->
         data_rows (convert_to_csv d name) = r :: rows ->
         exists x y z tl, r = Num 0 :: Num x :: Num y :: Num z :: tl).
Proof.
  intro Hfin. destruct (data_rows_convert d name) as [-> _]. split.
  - destruct (emitted_prefix (ds_lines d) conv_init [] eq_refl) as (t & Ht).
    cbn [map app] in Ht.
    apply nondecreasing_prefix with (b := t). rewrite <- Ht.
    apply nondecreasing_tail with (x := path_length conv_init).
    apply trace_nondecreasing; [|assumption].
    split; [exact nonneg_zero|exact I].
  - intros line rest r rows Hlines Hc Hrows. rewrite Hlines in Hrows, Hfin.
    cbn [forallb] in Hfin. apply andb_prop in Hfin. destruct Hfin as [Hl _].
    unfold finite_coords in Hl. unfold is_coords in Hc.
    cbn [convert_lines] in Hrows.
    destruct (Re.search re_coords line) as [groups|]; [|discriminate Hc].
    destruct (coords_line conv_init groups) as [st'|] eqn:Hst;
      [|discriminate Hrows].
    destruct (coords_line_first _ _ Hl Hst) as (x & y & z & Ho).
    destruct (convert_lines st' rest) as [rows' e] eqn:Hconv.
    cbn [fst] in Hrows. subst rows'.
    destruct (first_row_extends _ _ _ _ _ Hconv) as (tl & ->).
    rewrite Ho. exists x, y, z, tl. reflexivity.
Qed.

(** The dataset of two k-points has finite coordinates. *)
Lemma path_lengths_nondecreasing_witness :
  forallb finite_coords (ds_lines two_points) = true
  /\ nondecreasing
       (emitted_paths
          (data_rows (convert_to_csv (libm := rounded) two_points "abinit.out"))).
Proof.
  split; [reflexivity|].
  apply (path_lengths_nondecreasing (libm := rounded) two_points "abinit.out").
  reflexivity.
Defined.

(** C4: the log of two k-points is scanned into one dataset, and its
    conversion writes, after the three descriptive rows, the rows
    [0.0 0.0 0.0 0.0 1.0 2.0] and [1.0 1.0 0.0 0.0 3.0 4.0], the energies
    as the text found in the log. *)
Theorem two_point_log {libm : Libm} name :
  find_datasets log_two_points = Ok [two_points]
  /\ convert_to_csv two_points name
     = ((descriptive_rows two_points name
         ++ [ [Num 0; Num 0; Num 0; Num 0; Str "1.0"; Str "2.0"];
              [Num 1; Num 1; Num 0; Num 0; Str "3.0"; Str "4.0"] ])%list,
        None)
  /\ data_rows (main (ArgStr "b") name log_two_points)
     = [ [Num 0; Num 0; Num 0; Num 0; Str "1.0"; Str "2.0"];
         [Num 1; Num 1; Num 0; Num 0; Str "3.0"; Str "4.0"] ].
Proof.
  assert (Hrows : convert_lines conv_init (ds_lines two_points)
                  = ([ [Num 0; Num 0; Num 0; Num 0; Str "1.0"; Str "2.0"];
                       [Num 1; Num 1; Num 0; Num 0; Str "3.0"; Str "4.0"] ],
                     None)) by (vm_compute; reflexivity).
  assert (Hfind : find_datasets log_two_points = Ok [two_points])
    by (vm_compute; reflexivity).
  assert (Hconv : convert_to_csv two_points name
     = ((descriptive_rows two_points name
         ++ [ [Num 0; Num 0; Num 0; Num 0; Str "1.0"; Str "2.0"];
              [Num 1; Num 1; Num 0; Num 0; Str "3.0"; Str "4.0"] ])%list,
        None)).
  { unfold convert_to_csv. now rewrite Hrows. }
  split; [exact Hfind|split; [exact Hconv|]].
  unfold main. rewrite Hfind. cbn [bind].
  change (chosen (ArgStr "b") [two_points]) with (Ok two_points).
  cbv beta iota. rewrite Hconv. reflexivity.
Qed.

(** C5, as stated, fails: the text [1-2] is one token, and it is not a
    signed decimal number. *)
Lemma token_not_a_number :
  Re.findall re_value "a 1-2 b" = ["1-2"]
  /\ spec_signed_decimal "1-2" = false
  /\ spec_signed_decimal "-2" = true.
Proof. repeat split; vm_compute; reflexivity. Qed.

(** C5, amended: the tokens of a line are its maximal runs of
    characters among the minus sign, the digits and the point, from left
    to right, and nothing else; the row of a values line holds them as
    text. *)
Theorem value_tokens line :
  tokens_of line (Re.findall re_value line)
  /\ (forall toks, tokens_of line toks -> toks = Re.findall re_value line)
  /\ (forall st,
         fst (values_line st line)
         = (out_line st ++ map Str (Re.findall re_value line))%list).
Proof.
  repeat split.
  - apply findall_value.
  - intros toks H. eapply tokens_of_unique; [exact H|apply findall_value].
Qed.

(** C6: [-c tok] with [tok] the text of an integer [n].  Outside
    [-len .. len-1] the program raises the [IndexError] it has built,
    whose message holds [tok], [-len] and [len-1]; inside, a negative [n]
    is the dataset [n] places from the end ([-1] the last one) and any
    other [n] the dataset at that place. *)
Theorem index_policy tok n datasets :
  Py.int tok = Some n ->
  let len := Z.of_nat (List.length datasets) in
  error_string tok len
  = "No such dataset: " ++ tok ++ ". There are " ++ Py.str len
    ++ " sets, so correct -c values are:'b', 'l', or any number from "
    ++ Py.str (- len) ++ " to " ++ Py.str (len - 1) ++ "."
  /\ (n < - len \/ len - 1 < n ->
      chosen (ArgList [tok]) datasets = Raise (IndexError (error_string tok len)))
  /\ (- len <= n < 0 ->
      exists d, nth_error datasets (Z.to_nat (len + n)) = Some d
                /\ chosen (ArgList [tok]) datasets = Ok d)
  /\ (0 <= n <= len - 1 ->
      exists d, nth_error datasets (Z.to_nat n) = Some d
                /\ chosen (ArgList [tok]) datasets = Ok d).
Proof.
  intros Hint len. split; [reflexivity|].
  unfold chosen, select. cbn [arg_is arg_first bind]. rewrite Hint. fold len.
  assert (Hget : forall j, 0 <= j < len ->
            exists d, nth_error datasets (Z.to_nat j) = Some d).
  { intros j Hj. destruct (nth_error datasets (Z.to_nat j)) eqn:E; [eauto|].
    apply nth_error_None in E. lia. }
  repeat split.
  - intro Hout. replace (negb _) with true; [reflexivity|].
    symmetry. apply negb_true_iff, andb_false_iff.
    destruct Hout; [left|right]; apply Z.leb_gt; lia.
  - intro Hin. destruct (Hget (len + n)) as (d & Hd); [lia|].
    exists d. split; [assumption|].
    replace (negb _) with false
      by (symmetry; apply negb_false_iff, andb_true_iff; split; apply Z.leb_le; lia).
    cbn [bind]. unfold Py.getitem. fold len.
    destruct (Z.ltb_spec n 0) as [_|?]; [|lia].
    destruct (Z.ltb_spec (n + len) 0) as [?|_]; [lia|].
    destruct (Z.leb_spec len (n + len)) as [?|_]; [lia|].
    cbn [orb]. replace (n + len) with (len + n) by lia. now rewrite Hd.
  - intro Hin. destruct (Hget n) as (d & Hd); [lia|].
    exists d. split; [assumption|].
    replace (negb _) with false
      by (symmetry; apply negb_false_iff, andb_true_iff; split; apply Z.leb_le; lia).
    cbn [bind]. unfold Py.getitem. fold len.
    destruct (Z.ltb_spec n 0) as [?|_]; [lia|].
    cbv beta iota zeta.
    destruct (Z.ltb_spec n 0) as [?|_]; [lia|].
    destruct (Z.leb_spec len n) as [?|_]; [lia|].
    cbn [orb]. now rewrite Hd.
Qed.

(** Two datasets and [-c -3]: the message names the range from -2 to
    1. *)
Lemma index_policy_witness :
  Py.int "-3" = Some (-3)
  /\ chosen (ArgList ["-3"]) [two_points; two_points]
     = Raise (IndexError
                "No such dataset: -3. There are 2 sets, so correct -c values are:'b', 'l', or any number from -2 to 1.").
Proof.
  split; [reflexivity|].
  apply (index_policy "-3" (-3) [two_points; two_points] eq_refl).
  left. reflexivity.
Defined.

(** C7: a log none of whose lines matches the header pattern gives no
    dataset, and no value of [-c] then selects one: the default (the
    biggest) and the last fail in the lookup [datasets[requested_set]],
    every number fails the range check, whose range is empty. *)
Theorem empty_log_selection_fails {libm : Libm} file name tok :
  Forall (fun line => Re.search re_header line = None) file ->
  find_datasets file = Ok []
  /\ chosen (ArgStr "b") [] = Raise (IndexError "list index out of range")
  /\ chosen (ArgStr "l") [] = Raise (IndexError "list index out of range")
  /\ chosen (ArgList [tok]) [] = Raise (IndexError (error_string tok 0))
  /\ main (ArgStr "b") name file = ([], Some (IndexError "list index out of range"))
  /\ main (ArgStr "l") name file = ([], Some (IndexError "list index out of range"))
  /\ main (ArgList [tok]) name file = ([], Some (IndexError (error_string tok 0))).
Proof.
  intro Hfile.
  assert (Hscan : scan file = Ok ([], 0)).
  { unfold scan. induction Hfile as [|line file Hline _ IH]; [reflexivity|].
    cbn [scan_from]. unfold scan_line. cbn [Z.eqb]. now rewrite Hline. }
  assert (Hfind : find_datasets file = Ok []).
  { unfold find_datasets. now rewrite Hscan. }
  assert (Htok : chosen (ArgList [tok]) [] = Raise (IndexError (error_string tok 0))).
  { unfold chosen, select. cbn [arg_is arg_first bind List.length Z.of_nat].
    destruct (Py.int tok) as [z|]; [|reflexivity].
    replace (negb _) with true; [reflexivity|].
    symmetry. apply negb_true_iff, andb_false_iff.
    destruct (Z.leb_spec (- 0) z); [right|now left].
    apply Z.leb_gt. lia. }
  unfold main. rewrite Hfind. cbn [bind]. rewrite Htok.
  repeat split; reflexivity.
Qed.

(** A log of two lines, neither of them a header. *)
Lemma empty_log_selection_fails_witness :
  find_datasets ["kpt= 0.0 0.0 0.0"; "1.0 2.0"] = Ok []
  /\ main (libm := rounded) (ArgList ["0"]) "abinit.out"
          ["kpt= 0.0 0.0 0.0"; "1.0 2.0"]
     = ([], Some (IndexError (error_string "0" 0))).
Proof.
  pose proof (empty_log_selection_fails (libm := rounded)
                ["kpt= 0.0 0.0 0.0"; "1.0 2.0"] "abinit.out" "0") as H.
  destruct H as (Hfind & _ & _ & _ & _ & _ & Hmain).
  - repeat constructor.
  - split; [exact Hfind|exact Hmain].
Defined.



(** C9: a header that declares zero k-points, met while the scanner
    seeks a header, adds a dataset with no lines and leaves the scanner
    seeking: the rest of the file is scanned as a file of its own, so
    that the very next line can open a dataset. *)
Theorem zero_point_header pre datasets header groups next groups' n' rest :
  scan pre = Ok (datasets, 0) ->
  Re.search re_header header = Some groups ->
  Py.int (nth 1 groups EmptyString) = Some 0 ->
  Re.search re_header next = Some groups' ->
  Py.int (nth 1 groups' EmptyString) = Some n' ->
  let d := mkDataset (nth 0 groups EmptyString) (nth 1 groups EmptyString) [] in
  let d' := mkDataset (nth 0 groups' EmptyString) (nth 1 groups' EmptyString) [] in
  scan (pre ++ [header]) = Ok ((datasets ++ [d])%list, 0)
  /\ scan (pre ++ header :: rest)
     = (st <- scan rest ;; Ok ((datasets ++ d :: fst st)%list, snd st))
  /\ scan (pre ++ [header; next]) = Ok ((datasets ++ [d; d'])%list, n' * 2).
Proof.
  intros Hpre Hs Hn Hs' Hn' d d'. unfold scan in *.
  assert (Hstep : scan_line (datasets, 0) header = Ok ((datasets ++ [d])%list, 0)).
  { unfold scan_line. cbn [Z.eqb]. now rewrite Hs, Hn. }
  assert (Hrest : forall file,
            scan_from ([], 0) (pre ++ header :: file)
            = (st <- scan_from ([], 0) file ;;
               Ok ((datasets ++ d :: fst st)%list, snd st))).
  { intro file. rewrite scan_from_app, Hpre. cbn [bind scan_from].
    rewrite Hstep. cbn [bind].
    rewrite <- (app_nil_r (datasets ++ [d])).
    rewrite scan_from_frame by now left. unfold framed.
    destruct (scan_from ([], 0) file) as [[ds a]|e]; cbn [bind fst snd];
      [|reflexivity].
    now rewrite <- app_assoc. }
  repeat split.
  - rewrite scan_from_app, Hpre. cbn [bind scan_from]. now rewrite Hstep.
  - apply Hrest.
  - rewrite Hrest. cbn [scan_from]. unfold scan_line. cbn [Z.eqb].
    rewrite Hs', Hn'. reflexivity.
Qed.

(** A header of zero k-points, and a header on the line after it. *)
Lemma zero_point_header_witness :
  scan [ "Eigenvalues ( Hartree ) for nkpt= 0 k points:";
         "Eigenvalues ( eV ) for nkpt= 1 k points:" ]
  = Ok ([mkDataset "Hartree" "0" []; mkDataset "eV" "1" []], 2).
Proof.
  apply (zero_point_header [] [] "Eigenvalues ( Hartree ) for nkpt= 0 k points:"
           ["Hartree"; "0"] "Eigenvalues ( eV ) for nkpt= 1 k points:"
           ["eV"; "1"] 1 []); reflexivity.
Defined.


(** * Further properties of the code *)

(** X1: without [-c], on a list of datasets that is not empty, the
    program always finds a dataset: the first one whose count, compared
    as text, is not below any other. *)
Theorem default_selects_first_greatest datasets :
  datasets <> [] ->
  first_greatest datasets (List.length datasets) (biggest datasets)
  /\ exists d, nth_error datasets (biggest datasets) = Some d
               /\ chosen (ArgStr "b") datasets = Ok d.
Proof.
  intro Hne.
  assert (Hfg : first_greatest datasets (List.length datasets) (biggest datasets)).
  { destruct datasets as [|d0 rest]; [congruence|].
    cbn [List.length]. apply (biggest_fold (d0 :: rest)). }
  split; [assumption|].
  destruct Hfg as (Hlt & _).
  destruct (nth_error datasets (biggest datasets)) as [d|] eqn:E.
  - exists d. split; [reflexivity|].
    unfold chosen, select. cbn [arg_is String.eqb Ascii.eqb Bool.eqb bind].
    now apply getitem_nat.
  - apply nth_error_None in E. lia.
Qed.

(** Counts 9, 10 and 9: the first 9 is selected. *)
Lemma default_selects_first_greatest_witness :
  chosen (ArgStr "b")
    [mkDataset "Hartree" "9" []; mkDataset "Hartree" "10" [];
     mkDataset "eV" "9" []]
  = Ok (mkDataset "Hartree" "9" []).
Proof.
  destruct (default_selects_first_greatest
              [mkDataset "Hartree" "9" []; mkDataset "Hartree" "10" [];
               mkDataset "eV" "9" []]) as (_ & d & Hd & Hc).
  - discriminate.
  - rewrite Hc. f_equal. vm_compute in Hd. now inversion Hd.
Defined.

(** X2: on a list of datasets that is not empty, the branch ["l"] and
    the number [-1] both select the last dataset. *)
Theorem last_is_minus_one init d :
  chosen (ArgStr "l") (init ++ [d]) = Ok d
  /\ chosen (ArgList ["-1"]) (init ++ [d]) = Ok d.
Proof.
  split.
  - unfold chosen, select. cbn [arg_is String.eqb Ascii.eqb Bool.eqb bind].
    apply getitem_last.
  - unfold chosen, select. cbn [arg_is arg_first bind].
    change (Py.int "-1") with (Some (-1)).
    rewrite length_app, Nat2Z.inj_add. change (Z.of_nat (List.length [d])) with 1.
    replace (negb _) with false.
    + cbn [bind]. apply getitem_last.
    + symmetry. apply negb_false_iff, andb_true_iff.
      split; apply Z.leb_le; lia.
Qed.

(** X3: a value of [-c] given on the command line that [int] does not
    accept, ["b"] and ["l"] among them, selects nothing.  When the file
    has been scanned, the program raises the [IndexError] with the
    message that lists the correct values; when the scan itself raised,
    that exception ends the program.  In both cases neither
    [convert_to_csv] nor [writerow] is called. *)
Theorem non_integer_choice_rejected {libm : Libm} tok name file :
  Py.int tok = None ->
  (forall datasets,
      find_datasets file = Ok datasets ->
      chosen (ArgList [tok]) datasets
      = Raise (IndexError (error_string tok (Z.of_nat (List.length datasets))))
      /\ main (ArgList [tok]) name file
         = ([], Some (IndexError
                        (error_string tok (Z.of_nat (List.length datasets))))))
  /\ (forall e,
         find_datasets file = Raise e ->
         main (ArgList [tok]) name file = ([], Some e))
  /\ exists e, main (ArgList [tok]) name file = ([], Some e).
Proof.
  intro Hint.
  assert (Hch : forall datasets,
            chosen (ArgList [tok]) datasets
            = Raise (IndexError (error_string tok (Z.of_nat (List.length datasets))))).
  { intro datasets. unfold chosen, select. cbn [arg_is arg_first bind].
    now rewrite Hint. }
  unfold main.
  destruct (find_datasets file) as [datasets|e]; cbn [bind].
  - rewrite Hch. split; [|split].
    + intros ds E. inversion E; subst ds. now rewrite Hch.
    + intros e E. discriminate E.
    + eauto.
  - split; [|split].
    + intros ds E. discriminate E.
    + intros e' E. now inversion E.
    + eauto.
Qed.

(** [-c b] on the log of two k-points. *)
Lemma non_integer_choice_rejected_witness :
  Py.int "b" = None
  /\ main (libm := rounded) (ArgList ["b"]) "abinit.out" log_two_points
     = ([], Some (IndexError
                    "No such dataset: b. There are 1 sets, so correct -c values are:'b', 'l', or any number from -1 to 0.")).
Proof.
  split; [reflexivity|].
  destruct (non_integer_choice_rejected (libm := rounded) "b" "abinit.out"
              log_two_points eq_refl) as (H & _).
  destruct (H [two_points] eq_refl) as [_ Hmain]. exact Hmain.
Defined.

(** X4: [find_datasets] raises in one case only: a line taken as a
    header whose count has more than 4300 digits, on which [int] raises
    [ValueError], as it does on [long_header]; [datasets[-1]] never
    raises.  So it returns on every file whose lines are no longer than
    4300 characters.  In what it returns, the count of every dataset is
    the text of an integer [n] that is not negative, no dataset holds
    more than [2 * n] lines, and every dataset but the last holds
    exactly [2 * n]. *)
Theorem find_datasets_outcome file :
  match find_datasets file with
  | Ok datasets =>
      Forall (fun d => exists n,
                Py.int (ds_nkpt d) = Some n /\ 0 <= n
                /\ Z.of_nat (List.length (ds_lines d)) <= 2 * n) datasets
      /\ forall init d,
           datasets = (init ++ [d])%list ->
           Forall (fun d => exists n,
                     Py.int (ds_nkpt d) = Some n
                     /\ Z.of_nat (List.length (ds_lines d)) = 2 * n) init
  | Raise e =>
      e = ValueError
      /\ exists line groups,
           In line file /\ Re.search re_header line = Some groups
           /\ 4300 < Z.of_nat (String.length (nth 1 groups EmptyString))
  end
  /\ (Forall (fun line => Z.of_nat (String.length line) <= 4300) file ->
      exists datasets, find_datasets file = Ok datasets)
  /\ find_datasets [long_header] = Raise ValueError.
Proof.
  split; [|split; [|vm_compute; reflexivity]].
  - unfold find_datasets, scan.
    destruct (scan_from ([], 0) file) as [[datasets ahead]|e] eqn:Hscan;
      cbn [bind fst].
    + destruct (scan_from_inv file _ _ scan_inv_init Hscan) as [Hpos Hinv].
      cbn [fst snd] in Hpos, Hinv.
      now apply scan_inv_bounds with (ahead := ahead).
    + now apply (scan_from_raises file ([], 0)); [apply scan_inv_init|].
  - intro Hshort. unfold find_datasets, scan.
    destruct (scan_from_short file ([], 0) scan_inv_init Hshort) as (st' & ->).
    cbn [bind]. eauto.
Qed.

(** X5: a file in two parts, the first of which ends outside a block:
    the datasets of the whole are those of the first part followed by
    those of the second part, scanned on its own, and the whole raises
    when the second part does. *)
Theorem find_datasets_app file1 file2 datasets1 :
  scan file1 = Ok (datasets1, 0) ->
  find_datasets (file1 ++ file2)
  = (datasets2 <- find_datasets file2 ;; Ok (datasets1 ++ datasets2)%list).
Proof.
  intro H1. unfold find_datasets, scan in *.
  rewrite scan_from_app, H1. cbn [bind].
  rewrite <- (app_nil_r datasets1) at 1.
  rewrite scan_from_frame by now left.
  unfold framed.
  now destruct (scan_from ([], 0) file2) as [[ds a]|e].
Qed.

(** The log of two k-points, twice. *)
Lemma find_datasets_app_witness :
  find_datasets (log_two_points ++ log_two_points) = Ok [two_points; two_points].
Proof.
  rewrite (find_datasets_app log_two_points log_two_points [two_points] eq_refl).
  reflexivity.
Defined.

(** X6: every line of the file is used once at most: the datasets
    found and the lines they hold are together no more than the lines of
    the file, and every line held is a line of the file. *)
Theorem find_datasets_uses_lines_once file datasets :
  find_datasets file = Ok datasets ->
  (lines_used datasets <= List.length file)%nat
  /\ Forall (fun d => incl (ds_lines d) file) datasets.
Proof.
  unfold find_datasets, scan. intro H.
  destruct (scan_from ([], 0) file) as [[ds a]|] eqn:E; [|discriminate H].
  inversion H; subst.
  destruct (scan_from_used file [] 0 datasets a [] E) as [Hu Hi];
    [constructor|]. split; [exact Hu|exact Hi].
Qed.

(** The log of two k-points: five lines, one header and four lines
    held. *)
Lemma find_datasets_uses_lines_once_witness :
  (lines_used [two_points] <= List.length log_two_points)%nat
  /\ Forall (fun d => incl (ds_lines d) log_two_points) [two_points].
Proof.
  apply (find_datasets_uses_lines_once log_two_points [two_points]).
  reflexivity.
Defined.

(** X7: a line is taken as a header, with the unit [u] and the count
    [n], when it holds [Eigenvalues (], the unit, [) for nkpt=], the
    count and [k points:], with any number of blanks around the unit and
    the count, whatever follows, and whatever stands before as long as
    [Eigenvalues (] does not start there. *)
Theorem header_recognised pre b1 u b2 b3 n b4 rest :
  let header := "Eigenvalues (" ++ b1 ++ u ++ b2 ++ ") for nkpt=" ++ b3 ++ n
                ++ b4 ++ "k points:" ++ rest in
  no_start "Eigenvalues (" pre header = true ->
  str_all is_blank b1 = true -> str_all is_blank b2 = true ->
  str_all is_blank b3 = true -> str_all is_blank b4 = true ->
  u <> EmptyString -> str_all is_word u = true ->
  n <> EmptyString -> str_all is_num n = true ->
  Re.search re_header (pre ++ header) = Some [u; n].
Proof.
  intros header Hpre H1 H2 H3 H4 Hu Hwu Hn Hdn. unfold re_header.
  rewrite (search_skip "Eigenvalues (" _ pre header Hpre).
  apply search_here with (rest := rest). now apply header_here.
Qed.

(** A header as Abinit prints it. *)
Lemma header_recognised_witness :
  Re.search re_header " Eigenvalues (hartree) for nkpt=  10  k points:"
  = Some ["hartree"; "10"].
Proof.
  apply (header_recognised " " EmptyString "hartree" EmptyString "  " "10" "  "
           EmptyString);
    reflexivity || discriminate.
Defined.

(** X8: a line is taken as a coordinate line, with the coordinates
    [x], [y] and [z], when it holds [kpt=] and three runs of characters
    among the minus sign, the digits and the point, each after one blank
    or more, the last one followed by a character of another kind or by
    the end of the line, whatever stands before as long as [kpt=] does not
    start there. *)
Theorem coords_recognised pre b1 x b2 y b3 z rest :
  let coords := "kpt=" ++ b1 ++ x ++ b2 ++ y ++ b3 ++ z ++ rest in
  no_start "kpt=" pre coords = true ->
  b1 <> EmptyString -> str_all is_blank b1 = true ->
  b2 <> EmptyString -> str_all is_blank b2 = true ->
  b3 <> EmptyString -> str_all is_blank b3 = true ->
  x <> EmptyString -> str_all is_value_char x = true ->
  y <> EmptyString -> str_all is_value_char y = true ->
  z <> EmptyString -> str_all is_value_char z = true ->
  not_starting is_value_char rest = true ->
  Re.search re_coords (pre ++ coords) = Some [x; y; z]
  /\ is_coords (pre ++ coords) = true.
Proof.
  intros coords Hpre N1 H1 N2 H2 N3 H3 Nx Hx Ny Hy Nz Hz Hrest.
  assert (Hs : Re.search re_coords (pre ++ coords) = Some [x; y; z]).
  { unfold re_coords. rewrite (search_skip "kpt=" _ pre coords Hpre).
    apply search_here with (rest := rest). now apply coords_here. }
  split; [exact Hs|]. unfold is_coords. now rewrite Hs.
Qed.

(** A coordinate line as Abinit prints it. *)
Lemma coords_recognised_witness :
  Re.search re_coords
    " kpt#   1, nband=  8, wtk=  0.00926, kpt=  0.5000  0.0000 -0.2500 (reduced coord)"
  = Some ["0.5000"; "0.0000"; "-0.2500"].
Proof.
  apply (coords_recognised " kpt#   1, nband=  8, wtk=  0.00926, "
           "  " "0.5000" "  " "0.0000" " " "-0.2500" " (reduced coord)");
    reflexivity || discriminate.
Defined.

(** X9: a log that lists datasets one after the other, each as its
    header followed by twice as many lines as its count says, is scanned
    back into these datasets, whatever the lines are, headers
    included. *)
Theorem find_datasets_render datasets :
  forallb well_formed datasets = true ->
  find_datasets (flat_map render datasets) = Ok datasets.
Proof.
  intro Hwf. unfold find_datasets, scan.
  now rewrite (scan_render datasets [] Hwf).
Qed.

(** A dataset of one k-point whose two lines are headers, then the
    dataset of two k-points. *)
Lemma find_datasets_render_witness :
  find_datasets
    (flat_map render
       [ mkDataset "eV" "1"
           [ "Eigenvalues ( Hartree ) for nkpt= 7 k points:";
             "Eigenvalues ( Hartree ) for nkpt= 0 k points:" ];
         two_points ])
  = Ok [ mkDataset "eV" "1"
           [ "Eigenvalues ( Hartree ) for nkpt= 7 k points:";
             "Eigenvalues ( Hartree ) for nkpt= 0 k points:" ];
         two_points ].
Proof.
  apply (find_datasets_render
           [ mkDataset "eV" "1"
               [ "Eigenvalues ( Hartree ) for nkpt= 7 k points:";
                 "Eigenvalues ( Hartree ) for nkpt= 0 k points:" ];
             two_points ]).
  reflexivity.
Defined.

(** X10: the only exceptions the conversion can raise are
    [OverflowError], from a square, and [ValueError], from [float] on a
    coordinate that is not a number: [math.sqrt] never gets a negative
    argument, and no index is ever out of range. *)
Theorem converter_exceptions {libm : Libm} d name e :
  snd (convert_to_csv d name) = Some e ->
  e = OverflowError
  \/ (e = ValueError
      /\ exists line groups i,
           In line (ds_lines d) /\ Re.search re_coords line = Some groups
           /\ (i < 3)%nat /\ Py.float (nth i groups EmptyString) = None).
Proof.
  destruct (data_rows_convert d name) as [_ ->]. apply convert_lines_raises.
Qed.

(** Two numbers glued into one token, as Fortran prints them when the
    second is negative. *)
Lemma converter_exceptions_witness :
  exists line groups i,
    In line ["kpt= 0.5000-0.2500 0.0 0.0"; "1.0"]
    /\ Re.search re_coords line = Some groups
    /\ (i < 3)%nat /\ Py.float (nth i groups EmptyString) = None.
Proof.
  destruct (converter_exceptions (libm := rounded)
              (mkDataset "Hartree" "1" ["kpt= 0.5000-0.2500 0.0 0.0"; "1.0"])
              "abinit.out" ValueError eq_refl) as [H|[_ H]].
  - discriminate H.
  - exact H.
Defined.

(** X11: every row is made of groups of four numbers followed by the
    tokens, as text, of the line that is not a coordinate line and that
    ended it, in the order of these lines: a number never follows a
    token, and no row mixes the tokens of two lines. *)
Theorem rows_shape {libm : Libm} d name :
  exists done rest,
    ds_lines d = (done ++ rest)%list
    /\ Forall2 row_for (data_rows (convert_to_csv d name)) (values_lines done)
    /\ match snd (convert_to_csv d name) with
       | None => rest = []
       | Some _ => exists c rest', rest = c :: rest' /\ is_coords c = true
       end.
Proof.
  destruct (data_rows_convert d name) as [-> ->].
  apply (convert_lines_shape (ds_lines d) conv_init []). reflexivity.
Qed.

(** X12: when the coordinates of the dataset are finite numbers, no
    path length written is negative or NaN. *)
Theorem path_lengths_not_negative {libm : Libm} d name :
  forallb finite_coords (ds_lines d) = true ->
  Forall (fun p => (0 <=? p)%float = true)
         (emitted_paths (data_rows (convert_to_csv d name))).
Proof.
  intro Hfin. destruct (data_rows_convert d name) as [-> _].
  destruct (emitted_prefix (ds_lines d) conv_init [] eq_refl) as (t & Ht).
  cbn [map app] in Ht.
  assert (H : Forall nonneg (trace conv_init (ds_lines d))).
  { apply trace_nonneg; [|assumption]. split; [exact nonneg_zero|exact I]. }
  rewrite Ht in H. apply Forall_app in H. destruct H as [H _].
  eapply Forall_impl; [|exact H]. intros p Hp. now apply nonneg_leb.
Qed.

(** The dataset of two k-points. *)
Lemma path_lengths_not_negative_witness :
  Forall (fun p => (0 <=? p)%float = true)
         (emitted_paths
            (data_rows (convert_to_csv (libm := rounded) two_points "abinit.out"))).
Proof.
  apply (path_lengths_not_negative (libm := rounded) two_points "abinit.out").
  reflexivity.
Defined.

(** X13: a block of pairs of a coordinate line and a values line,
    whose conversion runs to its end, gives one row for each pair: the
    path length, the three coordinates as numbers, and the tokens of the
    values line.  The path length of the first row is the length of the
    step from the first k-point to itself; each row after it adds the
    length of the step from the k-point before, the square root of the
    sum of the three [** 2], added up from 0.0 in the order of the
    coordinates. *)
Theorem rows_of_block {libm : Libm} d name pairs ks :
  ds_lines d = flatten_pairs pairs ->
  map (fun p => coords_of (fst p)) pairs = map Some ks ->
  forallb (fun p => negb (is_coords (snd p))) pairs = true ->
  snd (convert_to_csv d name) = None ->
  data_rows (convert_to_csv d name) = rows_of ks (map snd pairs).
Proof.
  intros Hlines Hks Hvs Hend.
  destruct (data_rows_convert d name) as [Hr He]. rewrite Hr.
  rewrite He in Hend. rewrite Hlines in *.
  destruct (convert_lines conv_init (flatten_pairs pairs)) as [rows e] eqn:Hconv.
  cbn [fst snd] in *. subst e.
  rewrite (convert_pairs_rows pairs ks conv_init rows Hks Hvs eq_refl Hconv).
  reflexivity.
Qed.

(** Three k-points, with steps of lengths 0.5 and 0.25, and a [pow]
    that gives their squares exactly. *)
Lemma rows_of_block_witness :
  data_rows
    (convert_to_csv (libm := rounded)
       (mkDataset "Hartree" "3"
          [ "kpt= 0.0 0.0 0.0"; "-0.5 0.1"; "kpt= 0.5 0.0 0.0"; "-0.4 0.2";
            "kpt= 0.5 0.25 0.0"; "-0.3 0.3" ]) "abinit.out")
  = [ [Num 0; Num 0; Num 0; Num 0; Str "-0.5"; Str "0.1"];
      [Num 0.5; Num 0.5; Num 0; Num 0; Str "-0.4"; Str "0.2"];
      [Num 0.75; Num 0.5; Num 0.25; Num 0; Str "-0.3"; Str "0.3"] ].
Proof.
  rewrite (rows_of_block (libm := rounded)
             (mkDataset "Hartree" "3"
                [ "kpt= 0.0 0.0 0.0"; "-0.5 0.1"; "kpt= 0.5 0.0 0.0"; "-0.4 0.2";
                  "kpt= 0.5 0.25 0.0"; "-0.3 0.3" ]) "abinit.out"
             [ ("kpt= 0.0 0.0 0.0", "-0.5 0.1"); ("kpt= 0.5 0.0 0.0", "-0.4 0.2");
               ("kpt= 0.5 0.25 0.0", "-0.3 0.3") ]
             [ (0, 0, 0); (0.5, 0, 0); (0.5, 0.25, 0) ]%float);
    reflexivity.
Defined.

(** X14: on a log that lists well-formed datasets one after the
    other, the program converts the last of them with ["l"], and without
    [-c] the one that the loop of the branch ["b"] ends on. *)
Theorem main_on_rendered_log {libm : Libm} name init d :
  forallb well_formed (init ++ [d]) = true ->
  main (ArgStr "l") name (flat_map render (init ++ [d])) = convert_to_csv d name
  /\ exists d',
       nth_error (init ++ [d]) (biggest (init ++ [d])) = Some d'
       /\ main (ArgStr "b") name (flat_map render (init ++ [d]))
          = convert_to_csv d' name.
Proof.
  intro Hwf.
  assert (Hfind : find_datasets (flat_map render (init ++ [d]))
                  = Ok (init ++ [d])%list).
  { unfold find_datasets, scan. now rewrite (scan_render (init ++ [d]) [] Hwf). }
  unfold main. rewrite Hfind. cbn [bind]. split.
  - unfold chosen, select. cbn [arg_is String.eqb Ascii.eqb Bool.eqb bind].
    now rewrite getitem_last.
  - assert (Hlt : (biggest (init ++ [d]) < List.length (init ++ [d]))%nat).
    { destruct (init ++ [d])%list as [|d0 l] eqn:E; [now destruct init|].
      apply (biggest_fold (d0 :: l)). }
    destruct (nth_error (init ++ [d]) (biggest (init ++ [d]))) as [d'|] eqn:E;
      [|apply nth_error_None in E; lia].
    exists d'. split; [reflexivity|].
    unfold chosen, select. cbn [arg_is String.eqb Ascii.eqb Bool.eqb bind].
    now rewrite (getitem_nat _ _ _ E).
Qed.

(** A log of two datasets, of 1 and of 2 k-points. *)
Lemma main_on_rendered_log_witness :
  main (libm := rounded) (ArgStr "l") "abinit.out"
       (flat_map render ([mkDataset "eV" "1" ["kpt= 0.0 0.0 0.0"; "1.0"]]
                         ++ [two_points]))
  = convert_to_csv (libm := rounded) two_points "abinit.out".
Proof.
  apply (main_on_rendered_log (libm := rounded) "abinit.out"
           [mkDataset "eV" "1" ["kpt= 0.0 0.0 0.0"; "1.0"]] two_points).
  reflexivity.
Defined.

(** X15: when a line is taken as a header, it holds [Eigenvalues (],
    blanks, a unit of one word character or more, blanks, [) for nkpt=],
    blanks, a count of one digit or more, blanks and [k points:], and the
    two groups are that unit and that count. *)
Theorem header_match_shape line groups :
  Re.search re_header line = Some groups ->
  exists pre b1 u b2 b3 n b4 rest,
    line = pre ++ "Eigenvalues (" ++ b1 ++ u ++ b2 ++ ") for nkpt=" ++ b3 ++ n
           ++ b4 ++ "k points:" ++ rest
    /\ groups = [u; n]
    /\ str_all is_blank b1 = true /\ str_all is_blank b2 = true
    /\ str_all is_blank b3 = true /\ str_all is_blank b4 = true
    /\ (u <> EmptyString /\ str_all is_word u = true)
    /\ (n <> EmptyString /\ str_all is_num n = true).
Proof.
  intro H. apply search_inv_at in H. destruct H as (pre & s & rest & -> & H).
  apply header_match_here in H.
  destruct H as (b1 & u & b2 & b3 & n & b4 & -> & H).
  exists pre, b1, u, b2, b3, n, b4, rest. split; [reflexivity|exact H].
Qed.

(** A header as Abinit prints it. *)
Lemma header_match_shape_witness :
  exists pre b1 u b2 b3 n b4 rest,
    " Eigenvalues (hartree) for nkpt=  10  k points:"
    = pre ++ "Eigenvalues (" ++ b1 ++ u ++ b2 ++ ") for nkpt=" ++ b3 ++ n
      ++ b4 ++ "k points:" ++ rest
    /\ ["hartree"; "10"] = [u; n]
    /\ str_all is_blank b1 = true /\ str_all is_blank b2 = true
    /\ str_all is_blank b3 = true /\ str_all is_blank b4 = true
    /\ (u <> EmptyString /\ str_all is_word u = true)
    /\ (n <> EmptyString /\ str_all is_num n = true).
Proof.
  apply (header_match_shape " Eigenvalues (hartree) for nkpt=  10  k points:"
           ["hartree"; "10"]).
  reflexivity.
Defined.

(** X16: when a line is taken as a coordinate line, it holds [kpt=]
    and three runs of one character or more among the minus sign, the
    digits and the point, each after one blank or more, and the three
    groups are these runs: [coords.groups()[i]] exists for [i] up to 2,
    and [float] gets no other character. *)
Theorem coords_match_shape line groups :
  Re.search re_coords line = Some groups ->
  exists pre b1 x b2 y b3 z rest,
    line = pre ++ "kpt=" ++ b1 ++ x ++ b2 ++ y ++ b3 ++ z ++ rest
    /\ groups = [x; y; z]
    /\ (b1 <> EmptyString /\ str_all is_blank b1 = true)
    /\ (b2 <> EmptyString /\ str_all is_blank b2 = true)
    /\ (b3 <> EmptyString /\ str_all is_blank b3 = true)
    /\ (x <> EmptyString /\ str_all is_value_char x = true)
    /\ (y <> EmptyString /\ str_all is_value_char y = true)
    /\ (z <> EmptyString /\ str_all is_value_char z = true).
Proof.
  intro H. apply search_inv_at in H. destruct H as (pre & s & rest & -> & H).
  apply coords_match_here in H.
  destruct H as (b1 & x & b2 & y & b3 & z & -> & H).
  exists pre, b1, x, b2, y, b3, z, rest. split; [reflexivity|exact H].
Qed.

(** A coordinate line as Abinit prints it. *)
Lemma coords_match_shape_witness :
  exists pre b1 x b2 y b3 z rest,
    " kpt#   1, nband=  8, wtk=  0.00926, kpt=  0.5000  0.0000 -0.2500 (reduced coord)"
    = pre ++ "kpt=" ++ b1 ++ x ++ b2 ++ y ++ b3 ++ z ++ rest
    /\ ["0.5000"; "0.0000"; "-0.2500"] = [x; y; z]
    /\ (b1 <> EmptyString /\ str_all is_blank b1 = true)
    /\ (b2 <> EmptyString /\ str_all is_blank b2 = true)
    /\ (b3 <> EmptyString /\ str_all is_blank b3 = true)
    /\ (x <> EmptyString /\ str_all is_value_char x = true)
    /\ (y <> EmptyString /\ str_all is_value_char y = true)
    /\ (z <> EmptyString /\ str_all is_value_char z = true).
Proof.
  apply (coords_match_shape
           " kpt#   1, nband=  8, wtk=  0.00926, kpt=  0.5000  0.0000 -0.2500 (reduced coord)"
           ["0.5000"; "0.0000"; "-0.2500"]).
  reflexivity.
Defined.
